(** * jenkins-tui: the job tree widget and the view coordinator

    A shallow embedding of [jenkins_tui/widgets/tree_widget.py] (the
    [JenkinsTree] widget) and of the message handlers of
    [jenkins_tui/app.py] (the [JenkinsTUI] application), together with the
    properties of the design document that concern them.

    Python strings are modelled as [string], dictionaries decoded from JSON
    as records with optional fields, the node table of the tree control as a
    [gmap] from node ids to nodes, and [async] methods as functions in a
    state-and-exception monad whose state is the widget. *)

From Stdlib Require Import Ascii.
From stdpp Require Import gmap strings list.

(** ** Python string methods used by the widget *)

Module PyStr.

(** [c in chars] for a string used as a set of characters. *)
Fixpoint mem (c : ascii) (chars : string) : bool :=
  match chars with
  | "" => false
  | String d r => bool_decide (c = d) || mem c r
  end.

(** [s.startswith(p)] *)
Fixpoint startswith (p s : string) : bool :=
  match p, s with
  | "", _ => true
  | String _ _, "" => false
  | String a p', String b s' => bool_decide (a = b) && startswith p' s'
  end.

(** [s.lstrip(chars)] *)
Fixpoint lstrip (chars s : string) : string :=
  match s with
  | "" => ""
  | String c s' => if mem c chars then lstrip chars s' else s
  end.

(** [s.rstrip(chars)] *)
Fixpoint rstrip (chars s : string) : string :=
  match s with
  | "" => ""
  | String c s' =>
      match rstrip chars s' with
      | "" => if mem c chars then "" else String c ""
      | r => String c r
      end
  end.

(** [s.strip(chars)] *)
Definition strip (chars s : string) : string := rstrip chars (lstrip chars s).

(** [s.split(sep)] for a non-empty [sep]: the text is scanned from the
    left, every occurrence of [sep] found closes the current piece and the
    scan resumes after it.  [skip] counts the characters of a matched
    separator that are still to be passed over. *)
Fixpoint split_go (sep : string) (skip : nat) (cur s : string) : list string :=
  match s with
  | "" => [cur]
  | String c s' =>
      match skip with
      | S k => split_go sep k cur s'
      | O =>
          if startswith sep s
          then cur :: split_go sep (String.length sep - 1) "" s'
          else split_go sep 0 (cur +:+ String c "") s'
      end
  end.

Definition split (sep s : string) : list string := split_go sep 0 "" s.

(** [sep.join(l)] *)
Fixpoint join (sep : string) (l : list string) : string :=
  match l with
  | [] => ""
  | x :: l' =>
      match l' with
      | [] => x
      | _ :: _ => x +:+ sep +:+ join sep l'
      end
  end.

(** [sep in s] *)
Fixpoint occurs (sep s : string) : bool :=
  startswith sep s ||
  match s with
  | "" => false
  | String _ s' => occurs sep s'
  end.

End PyStr.

(** ** The job tree widget ([widgets/tree_widget.py]) *)

Module Tree.
Import PyStr.

Abbreviation NodeID := nat.

(** A raw job descriptor: one JSON object of the answer of the server, a
    [dict] in the source.  A key may be absent; [d[k]] on an absent key
    raises [KeyError], [d.get(k, default)] gives the default. *)
#[local] Unset Elimination Schemes.
Inductive entry : Type :=
  Entry { k_class : option string;
          k_name : option string;
          k_url : option string;
          k_color : option string;
          k_jobs : option (list entry) }.
#[local] Set Elimination Schemes.

(** [@dataclass class JobEntry] *)
Record JobEntry : Type :=
  { name : string; url : string; color : string; type : string;
    jobs : list entry }.

(** A node of the tree control.  The objects of the source are addressed
    here by their [id]; [children] lists the ids of the child nodes. *)
Record TreeNode : Type :=
  { node_id : NodeID; parent : option NodeID; label : string;
    data : JobEntry; loaded : bool; expanded : bool;
    children : list NodeID }.

(** The client, seen from the widget: the answers that the coming calls of
    [client.get_jobs(recursive=True)] will receive, [None] for a call that
    raises.  A call consumes the first answer. *)
Definition Jenkins : Type := list (option (list entry)).

(** The widget: the node table [self.nodes] and the id counter [self.id]
    of the tree control, the client, and the [chicken_mode_enabled]
    attribute of the application. *)
Record JenkinsTree : Type :=
  { nodes : gmap NodeID TreeNode; id : NodeID; client : Jenkins;
    chicken_mode_enabled : bool }.

Inductive exn : Type :=
  | KeyError (key : string)
  | FetchError.

(** Messages sent to the parent with [self.emit]. *)
Inductive Message : Type :=
  | JobClick (node_name : string) (url : string)
  | RootClick.

(** Methods of the widget: the widget is threaded through, an exception
    stops the method and keeps the mutations made so far. *)
Definition M (A : Type) : Type := JenkinsTree → (exn + A) * JenkinsTree.

Definition ret {A} (a : A) : M A := λ t, (inr a, t).
Definition raise {A} (e : exn) : M A := λ t, (inl e, t).
Definition bind {A B} (m : M A) (k : A → M B) : M B :=
  λ t, match m t with
       | (inl e, t') => (inl e, t')
       | (inr a, t') => k a t'
       end.

Notation "'let!' x ':=' m 'in' k" := (bind m (λ x, k))
  (at level 10, x name, m at level 100, k at level 200).
Notation "m ';;' k" := (bind m (λ _, k))
  (at level 100, k at level 200, right associativity).

Definition gets {A} (f : JenkinsTree → A) : M A := λ t, (inr (f t), t).
Definition modify (f : JenkinsTree → JenkinsTree) : M unit := λ t, (inr tt, f t).

(** [d[key]] *)
Definition getitem {A} (key : string) (o : option A) : M A :=
  match o with
  | Some v => ret v
  | None => raise (KeyError key)
  end.

(** [await self.client.get_jobs(recursive=True)] *)
Definition get_jobs : M (list entry) :=
  λ t, match client t with
       | Some js :: rest =>
           (inr js, {| nodes := nodes t; id := id t; client := rest;
                       chicken_mode_enabled := chicken_mode_enabled t |})
       | None :: rest =>
           (inl FetchError, {| nodes := nodes t; id := id t; client := rest;
                               chicken_mode_enabled := chicken_mode_enabled t |})
       | [] => (inl FetchError, t)
       end.

Definition type_map : gmap string string :=
  <["org.jenkinsci.plugins.workflow.job.WorkflowJob" := "job"]>
  (<["com.cloudbees.hudson.plugins.folder.Folder" := "folder"]>
  (<["org.jenkinsci.plugins.workflow.multibranch.WorkflowMultiBranchProject" := "multibranch"]> ∅)).

Definition set_nodes (ns : gmap NodeID TreeNode) (i : NodeID) (t : JenkinsTree) : JenkinsTree :=
  {| nodes := ns; id := i; client := client t;
     chicken_mode_enabled := chicken_mode_enabled t |}.

Definition with_children (cs : list NodeID) (n : TreeNode) : TreeNode :=
  {| node_id := node_id n; parent := parent n; label := label n; data := data n;
     loaded := loaded n; expanded := expanded n; children := cs |}.

Definition with_loaded (b : bool) (n : TreeNode) : TreeNode :=
  {| node_id := node_id n; parent := parent n; label := label n; data := data n;
     loaded := b; expanded := expanded n; children := children n |}.

Definition with_expanded (b : bool) (n : TreeNode) : TreeNode :=
  {| node_id := node_id n; parent := parent n; label := label n; data := data n;
     loaded := loaded n; expanded := b; children := children n |}.

(** [TreeControl.add(node_id, label, data)], reached through
    [await node.add(label, data)]: the counter is advanced, the child is
    appended to the children of its parent and entered in the table. *)
Definition add (nid : NodeID) (lbl : string) (d : JobEntry) : M unit :=
  λ t, match nodes t !! nid with
       | None => (inl (KeyError "nodes"), t)
       | Some p =>
           let new := id t + 1 in
           let child :=
             {| node_id := new; parent := Some nid; label := lbl; data := d;
                loaded := false; expanded := false; children := [] |} in
           (inr tt,
            set_nodes (<[new := child]>
                         (<[nid := with_children (children p ++ [new]) p]> (nodes t)))
                      new t)
       end.

(** [node.loaded = True] *)
Definition set_loaded (nid : NodeID) : M unit :=
  modify (λ t, set_nodes (alter (with_loaded true) nid (nodes t)) (id t) t).

(** [await node.expand()] *)
Definition expand (nid : NodeID) : M unit :=
  modify (λ t, set_nodes (alter (with_expanded true) nid (nodes t)) (id t) t).

(** [await node.toggle()]: [expand(not expanded)] *)
Definition toggle (nid : NodeID) : M unit :=
  modify (λ t, set_nodes (alter (λ n, with_expanded (negb (expanded n)) n) nid (nodes t))
                         (id t) t).

(** [self.nodes[node_id]] *)
Definition node (nid : NodeID) : M TreeNode :=
  λ t, match nodes t !! nid with
       | Some n => (inr n, t)
       | None => (inl (KeyError "nodes"), t)
       end.

(** The name of a job: the url without its slashes at both ends, cut at
    every ["/job/"], the first piece dropped, the others joined. *)
Definition full_name (u : string) : string :=
  let parts := split "/job/" (strip "/" u) in
  join "/" (tail parts).

(** ** Notions used to state the properties of the widget *)

(** A character string without slash. *)
Fixpoint no_slash (w : string) : bool :=
  match w with
  | "" => true
  | String c w' => negb (bool_decide (c = "/"%char)) && no_slash w'
  end.

(** A path segment: not empty, without slash. *)
Definition segment (w : string) : Prop := w ≠ "" ∧ no_slash w = true.

(** The path of a job below the base url of the server. *)
Fixpoint job_path (segs : list string) : string :=
  match segs with
  | [] => ""
  | s :: r => "/job/" +:+ s +:+ job_path r
  end.

(** No ["/job/"] begins inside [w], whatever follows. *)
Definition job_free (w : string) : Prop := occurs "/job/" (w +:+ "/job") = false.

(** [touches_only m op]: the method [op] never lowers the counter of the
    widget and leaves every node allocated so far, other than [m], as it
    is, whether it returns or raises. *)
Definition touches_only {A} (m : NodeID) (op : M A) : Prop :=
  ∀ t, id t ≤ id (op t).2 ∧
       ∀ k, k ≤ id t → k ≠ m → nodes (op t).2 !! k = nodes t !! k.

(** A descriptor of the shape the server sends: the keys [_class], [name]
    and [url] are present; [color] and [jobs] may be absent. *)
Definition described (e : entry) : Prop :=
  is_Some (k_class e) ∧ is_Some (k_name e) ∧ is_Some (k_url e).

(** The descriptors that [load_jobs] would process for the node [p] now:
    the answer of the server for a node of type root ([None] when the call
    raises), the seed kept in the node otherwise. *)
Definition pending_jobs (t : JenkinsTree) (p : TreeNode) : option (list entry) :=
  if bool_decide (type (data p) = "root") then
    match client t with
    | Some js :: _ => Some js
    | _ => None
    end
  else Some (jobs (data p)).

Definition loaded_expanded (cs : list NodeID) (p : TreeNode) : TreeNode :=
  with_expanded true (with_loaded true (with_children cs p)).

Definition after_fetch (t : JenkinsTree) (p : TreeNode) : JenkinsTree :=
  if bool_decide (type (data p) = "root") then
    {| nodes := nodes t; id := id t; client := tail (client t);
       chicken_mode_enabled := chicken_mode_enabled t |}
  else t.

Definition loaded_at (nid : NodeID) (t : JenkinsTree) : bool :=
  from_option loaded false (nodes t !! nid).

Section Methods.

(** [urllib.parse.unquote] *)
Variable unquote : string → string.

(** The body of the loop of [load_jobs], for one descriptor. *)
Definition load_entry (nid : NodeID) (e : entry) : M unit :=
  let! cls := getitem "_class" (k_class e) in
  let typeof := default "" (type_map !! cls) in
  let! chicken := gets chicken_mode_enabled in
  let! clean_name :=
    (if chicken then ret "chicken"
     else let! n := getitem "name" (k_name e) in ret (unquote n)) in
  let! u := getitem "url" (k_url e) in
  let job :=
    {| name := full_name u; url := u;
       color := default "none" (k_color e);
       type := typeof;
       jobs := default [] (k_jobs e) |} in
  add nid clean_name job.

(** [for entry in jobs: ...] *)
Fixpoint load_entries (nid : NodeID) (js : list entry) : M unit :=
  match js with
  | [] => ret tt
  | e :: js' => load_entry nid e ;; load_entries nid js'
  end.

(** [async def load_jobs(self, node)] *)
Definition load_jobs (nid : NodeID) : M unit :=
  let! n := node nid in
  let! js := (if bool_decide (type (data n) = "root") then get_jobs
              else ret (jobs (data n))) in
  load_entries nid js ;;
  set_loaded nid ;;
  expand nid.

(** [async def handle_tree_click(self, message)]; the result is the list
    of the messages emitted. *)
Definition handle_tree_click (nid : NodeID) : M (list Message) :=
  let! n := node nid in
  let node_data := data n in
  if bool_decide (type node_data = "job") then
    ret [JobClick (name node_data) (url node_data)]
  else if bool_decide (name node_data = "root") then
    ret [RootClick]
  else if negb (loaded n) then
    load_jobs nid ;; expand nid ;; ret []
  else
    toggle nid ;; ret [].

(** [JenkinsTree.__init__]: a tree control whose only node is the root. *)
Definition init (c : Jenkins) (chicken : bool) : JenkinsTree :=
  let d := {| name := "root"; url := ""; color := ""; type := "root"; jobs := [] |} in
  {| nodes := {[ 0 := {| node_id := 0; parent := None; label := "pipelines";
                         data := d; loaded := false; expanded := false;
                         children := [] |} ]};
     id := 0; client := c; chicken_mode_enabled := chicken |}.

(** [async def on_mount(self)] *)
Definition on_mount : M unit := load_jobs 0.

(** A session of clicks: each click is handled in turn, whether or not the
    handler of the one before raised. *)
Definition run_clicks (clicks : list NodeID) (t : JenkinsTree) : JenkinsTree :=
  foldl (λ t nid, (handle_tree_click nid t).2) t clicks.

(** The node that the loop of [load_jobs] creates for a descriptor. *)
Definition child_of (chicken : bool) (nid new : NodeID) (e : entry) : TreeNode :=
  {| node_id := new; parent := Some nid;
     label := if chicken then "chicken" else unquote (default "" (k_name e));
     data := {| name := full_name (default "" (k_url e));
                url := default "" (k_url e);
                color := default "none" (k_color e);
                type := default "" (k_class e ≫= (type_map !!.));
                jobs := default [] (k_jobs e) |};
     loaded := false; expanded := false; children := [] |}.

(** How many clicks of a session turn the node [nid] from not loaded to
    loaded. *)
Fixpoint transitions (nid : NodeID) (clicks : list NodeID) (t : JenkinsTree) : nat :=
  match clicks with
  | [] => 0
  | m :: rest =>
      let t' := (handle_tree_click m t).2 in
      (if negb (loaded_at nid t) && loaded_at nid t' then 1 else 0)
      + transitions nid rest t'
  end.

End Methods.

End Tree.

(** ** The memoised label renderer ([functools.lru_cache]) *)

Module LruCache.

Section Cache.
Context {K V : Type} `{EqDecision K}.

(** The entries of the cache, the most recently used first. *)
Definition cache : Type := list (K * V).

Fixpoint cache_get (k : K) (c : cache) : option V :=
  match c with
  | [] => None
  | (k', v) :: c' => if decide (k = k') then Some v else cache_get k c'
  end.

Definition cache_del (k : K) (c : cache) : cache :=
  filter (λ p, p.1 ≠ k) c.

(** One call of the wrapper built by [lru_cache(maxsize)] around
    [user_function], for a positive or zero [maxsize]: a hit moves the entry
    to the front; a miss computes the result and, when the cache is full,
    drops the entry used least recently before the new one is entered. *)
Definition call (maxsize : nat) (user_function : K → V) (k : K) (c : cache)
  : V * cache :=
  match cache_get k c with
  | Some v => (v, (k, v) :: cache_del k c)
  | None =>
      let v := user_function k in
      if decide (maxsize = 0) then (v, c)
      else if decide (maxsize ≤ length c) then (v, (k, v) :: removelast c)
      else (v, (k, v) :: c)
  end.

(** A sequence of calls; each comes with the function as it computes at
    the time of the call. *)
Definition calls (maxsize : nat) (reqs : list ((K → V) * K)) (c : cache) : cache :=
  foldl (λ c r, (call maxsize r.1 r.2 c).2) c reqs.

Definition keys (c : cache) : list K := c.*1.

End Cache.

End LruCache.

Module Render.
Import Tree.

(** The arguments of [render_tree_label], which make the key of its cache:
    the widget ([self]) and the node, both compared by identity, and the
    five values passed by [render_node]. *)
Record key : Type :=
  { k_self : nat; k_node : NodeID; k_type : string; k_expanded : bool;
    k_is_cursor : bool; k_is_hover : bool; k_has_focus : bool }.

#[export] Instance key_eq_dec : EqDecision key.
Proof. solve_decision. Defined.

(** The label rendered: the icon, the text and the names of the styles of
    [self.styles] applied to it, and the [meta] dictionary. *)
Record RenderableType : Type :=
  { icon : string; text : string; styles : list string;
    meta_click : NodeID; meta_tree_node : NodeID; meta_cursor : bool }.

Definition color_map : gmap string string :=
  list_to_map
    [("aborted", "❌"); ("blue", "🔵"); ("blue_anime", "🔄");
     ("disabled", "⭕"); ("grey", "⚪"); ("notbuilt", "⏳");
     ("red_anime", "🔄"); ("red", "🔴"); ("yellow", "🟡");
     ("none", "🟣")].

Definition maxsize : nat := 1024 * 32.

(** The body of [render_tree_label]; [cursor] is the cursor of the tree
    control, read by [node.is_cursor]. *)
Definition render_tree_label (t : JenkinsTree) (cursor : NodeID) (k : key)
  : option RenderableType :=
  n ← nodes t !! k_node k;
  let st1 := if k_is_hover k then ["node_on_hover"] else [] in
  let st2 := if k_is_cursor k && k_has_focus k then ["tree_on_cursor"] else [] in
  let '(st3, ic) :=
    if bool_decide (k_type k = "root") then ("root_node", "📂")
    else if bool_decide (k_type k = "folder") then
      ("folder", if k_expanded k then "📂" else "📁")
    else if bool_decide (k_type k = "multibranch") then ("multibranch_node", "🌱")
    else ("node", default "?" (color_map !! color (data n))) in
  Some {| icon := ic; text := label n; styles := st1 ++ st2 ++ [st3];
          meta_click := node_id n; meta_tree_node := node_id n;
          meta_cursor := bool_decide (cursor = node_id n) |}.

(** [render_node]: the call of the cached [render_tree_label]. *)
Definition render_node (self : nat) (t : JenkinsTree) (cursor hover_node : NodeID)
    (has_focus : bool) (n : TreeNode)
    (c : LruCache.cache (K := key) (V := option RenderableType))
  : option RenderableType * LruCache.cache :=
  LruCache.call maxsize (render_tree_label t cursor)
    {| k_self := self; k_node := node_id n; k_type := type (data n);
       k_expanded := expanded n;
       k_is_cursor := bool_decide (cursor = node_id n);
       k_is_hover := bool_decide (node_id n = hover_node);
       k_has_focus := has_focus |} c.

End Render.

(** ** Rendering in sessions *)

Module RenderLoop.
Import Tree Render.

(** What one call of [render_node] reads: the tree with its cursor, the
    attributes [hover_node] and [has_focus] of the widget, and the node
    to render. *)
Record frame : Type :=
  { f_tree : JenkinsTree; f_cursor : NodeID; f_hover_node : NodeID;
    f_has_focus : bool; f_node : TreeNode }.

(** The arguments with which [render_node] calls [render_tree_label]. *)
Definition key_of (self : nat) (fr : frame) : key :=
  {| k_self := self; k_node := node_id (f_node fr);
     k_type := type (data (f_node fr));
     k_expanded := expanded (f_node fr);
     k_is_cursor := bool_decide (f_cursor fr = node_id (f_node fr));
     k_is_hover := bool_decide (node_id (f_node fr) = f_hover_node fr);
     k_has_focus := f_has_focus fr |}.

Definition render_frame (self : nat) (fr : frame)
    (c : LruCache.cache (K := key) (V := option RenderableType))
  : option RenderableType * LruCache.cache :=
  render_node self (f_tree fr) (f_cursor fr) (f_hover_node fr) (f_has_focus fr)
    (f_node fr) c.

(** The cache after [render_node] has been called for each frame in turn. *)
Definition render_session (self : nat) (frs : list frame)
    (c : LruCache.cache (K := key) (V := option RenderableType))
  : LruCache.cache (K := key) (V := option RenderableType) :=
  foldl (λ c fr, (render_frame self fr c).2) c frs.

(** Two calls of [render_node] pass the same six values after [self]. *)
Definition same_inputs (fr1 fr2 : frame) : Prop :=
  node_id (f_node fr2) = node_id (f_node fr1)
  ∧ type (data (f_node fr2)) = type (data (f_node fr1))
  ∧ expanded (f_node fr2) = expanded (f_node fr1)
  ∧ bool_decide (f_cursor fr2 = node_id (f_node fr2))
    = bool_decide (f_cursor fr1 = node_id (f_node fr1))
  ∧ bool_decide (node_id (f_node fr2) = f_hover_node fr2)
    = bool_decide (node_id (f_node fr1) = f_hover_node fr1)
  ∧ f_has_focus fr2 = f_has_focus fr1.

(** The keys of a sequence of calls in the order of their last use, the
    one used last first, each once. *)
Definition recently_used {K} `{EqDecision K} (ks : list K) : list K :=
  reverse (remove_dups ks).

(** A frame for a node with the id [i]. *)
Definition frame_at (i : NodeID) : frame :=
  {| f_tree := init [] false; f_cursor := 0; f_hover_node := 0;
     f_has_focus := false;
     f_node := {| node_id := i; parent := None; label := "pipelines";
                  data := {| name := "root"; url := ""; color := "";
                             type := "root"; jobs := [] |};
                  loaded := false; expanded := false; children := [] |} |}.

End RenderLoop.

(** ** The application ([app.py]) *)

Module App.

(** The widgets docked in the main container. *)
Inductive Widget : Type :=
  | JobInfo0                                  (* [JobInfo()] *)
  | JobInfo (title : string) (text : string)  (* [JobInfo(title=, text=)] *)
  | BuildQueue
  | ExecutorStatus
  | BuildTable (url : string).

(** The answer of [client.get_info_for_job]; [healthReport] holds the
    [description] of each report. *)
Record build_info : Type :=
  { displayName : string; description : string; healthReport : list string }.

(** The closures given to [call_later]; [set_job] captures the message. *)
Inductive Callback : Type :=
  | set_home
  | set_job (node_name : string) (url : string).

(** The application: its reactive attribute [current_node], the content of
    [self.container], the tree shown in [self.directory_scroll_view], the
    callbacks posted with [call_later] and not yet run, and the [set_job]
    coroutines suspended at [await self.client.get_info_for_job(...)].
    The client of the application is the one held by the tree. *)
Record JenkinsTUI : Type :=
  { current_node : string; chicken_mode_enabled : bool;
    container : list Widget; directory : Tree.JenkinsTree;
    callbacks : list Callback; awaiting : list (string * string) }.

Definition with_selection (cur : string) (cb : Callback) (a : JenkinsTUI) : JenkinsTUI :=
  {| current_node := cur; chicken_mode_enabled := chicken_mode_enabled a;
     container := container a; directory := directory a;
     callbacks := callbacks a ++ [cb]; awaiting := awaiting a |}.

(** [await self.container.update(...)] *)
Definition container_update (ws : list Widget) (a : JenkinsTUI) : JenkinsTUI :=
  {| current_node := current_node a; chicken_mode_enabled := chicken_mode_enabled a;
     container := ws; directory := directory a;
     callbacks := callbacks a; awaiting := awaiting a |}.

Definition with_queues (cbs : list Callback) (aw : list (string * string))
    (a : JenkinsTUI) : JenkinsTUI :=
  {| current_node := current_node a; chicken_mode_enabled := chicken_mode_enabled a;
     container := container a; directory := directory a;
     callbacks := cbs; awaiting := aw |}.

(** [async def handle_root_click(self, message)] *)
Definition handle_root_click (a : JenkinsTUI) : JenkinsTUI :=
  if bool_decide (current_node a ≠ "root")
  then with_selection "root" set_home a
  else a.

(** [async def handle_job_click(self, message)] *)
Definition handle_job_click (node_name url : string) (a : JenkinsTUI) : JenkinsTUI :=
  if bool_decide (node_name ≠ current_node a)
  then with_selection node_name (set_job node_name url) a
  else a.

Definition nl : string := String (Ascii.ascii_of_nat 10) "".

Definition lorum : string :=
  "Chicken chicken chicken chick chick, chicken chicken chick. Chick chicken chicken chick. Chicken chicken chicken chick, egg chicken chicken. Chicken.".

(** [set_job] after its [await]: the panel built from the answer. *)
Definition job_panel (chicken : bool) (url : string) (bi : build_info) : list Widget :=
  let name := if chicken then "chicken" else displayName bi in
  let description := if chicken then lorum else description bi in
  let info_text := "[bold]description[/bold]" +:+ nl +:+ description in
  let info_text :=
    match healthReport bi with
    | [] => info_text
    | h :: _ => info_text +:+ nl +:+ nl +:+ "[bold]health[/bold]" +:+ nl +:+ h
    end in
  [JobInfo name info_text; BuildTable url].

(** The panel of [set_home]. *)
Definition home_panel : list Widget := [JobInfo0; BuildQueue; ExecutorStatus].

(** The oldest callback starts: [set_home] runs to its end, [set_job]
    runs up to its request to the server. *)
Definition run_callback (a : JenkinsTUI) : JenkinsTUI :=
  match callbacks a with
  | [] => a
  | set_home :: cbs => container_update home_panel (with_queues cbs (awaiting a) a)
  | set_job n u :: cbs => with_queues cbs (awaiting a ++ [(n, u)]) a
  end.

(** The request of the [i]-th suspended [set_job] is answered ([None]: the
    call raises) and the coroutine runs to its end. *)
Definition resume (i : nat) (r : option build_info) (a : JenkinsTUI) : JenkinsTUI :=
  match awaiting a !! i with
  | None => a
  | Some (n, u) =>
      let a' := with_queues (callbacks a) (delete i (awaiting a)) a in
      match r with
      | None => a'
      | Some bi => container_update (job_panel (chicken_mode_enabled a) u bi) a'
      end
  end.

(** Exceptions raised in the application. *)
Inductive exn : Type :=
  | TypeError (keyword : string).

(** The parameters of [JenkinsTree.__init__], [self] apart. *)
Definition JenkinsTree_parameters : list string := ["client"].

(** The call [JenkinsTree(...)] with the given keywords: a keyword that
    is not a parameter of [__init__] makes the call raise [TypeError],
    before anything is constructed. *)
Definition new_JenkinsTree (keywords : list string) (c : Tree.Jenkins)
    (chicken : bool) : exn + Tree.JenkinsTree :=
  match filter (λ k, k ∉ JenkinsTree_parameters) keywords with
  | [] => inr (Tree.init c chicken)
  | k :: _ => inl (TypeError k)
  end.

Section Refresh.
Variable unquote : string → string.

(** [async def action_refresh_tree(self)]: a widget is constructed with
    the keywords [client] and [name]; if the call returns, the widget is
    mounted in the scroll view in place of the old one.  An exception
    leaves the application as it is. *)
Definition action_refresh_tree (a : JenkinsTUI) : (exn + unit) * JenkinsTUI :=
  match new_JenkinsTree ["client"; "name"]
          (Tree.client (directory a)) (chicken_mode_enabled a) with
  | inl e => (inl e, a)
  | inr directory' =>
      (inr tt,
       {| current_node := current_node a;
          chicken_mode_enabled := chicken_mode_enabled a;
          container := container a;
          directory := (Tree.on_mount unquote directory').2;
          callbacks := callbacks a; awaiting := awaiting a |})
  end.

(** [on_mount] of the application, after [on_load]: the tree is
    constructed with the same keywords before the scroll view and the
    container are made. *)
Definition on_mount (c : Tree.Jenkins) (chicken : bool) : exn + JenkinsTUI :=
  match new_JenkinsTree ["client"; "name"] c chicken with
  | inl e => inl e
  | inr directory' =>
      inr {| current_node := "root"; chicken_mode_enabled := chicken;
             container := home_panel;
             directory := (Tree.on_mount unquote directory').2;
             callbacks := []; awaiting := [] |}
  end.

End Refresh.

(** What happens to the application, in the order in which it happens. *)
Inductive event : Type :=
  | Root_click
  | Job_click (node_name : string) (url : string)
  | Run_callback
  | Answer (i : nat) (r : option build_info).

Definition step (a : JenkinsTUI) (e : event) : JenkinsTUI :=
  match e with
  | Root_click => handle_root_click a
  | Job_click n u => handle_job_click n u a
  | Run_callback => run_callback a
  | Answer i r => resume i r a
  end.

Definition run (es : list event) (a : JenkinsTUI) : JenkinsTUI := foldl step a es.

End App.

(** ** Concrete servers, trees and applications *)

Module Samples.
Import Tree App.

Definition job_svc_a : entry :=
  Entry (Some "org.jenkinsci.plugins.workflow.job.WorkflowJob") (Some "svc-a")
        (Some "http://ci/job/root/job/svc-a/") (Some "blue") None.

(** A folder of the server whose name is [root]. *)
Definition folder_named_root : entry :=
  Entry (Some "com.cloudbees.hudson.plugins.folder.Folder") (Some "root")
        (Some "http://ci/job/root/") None (Some [job_svc_a]).

Definition root_node : TreeNode :=
  {| node_id := 0; parent := None; label := "pipelines";
     data := {| name := "root"; url := ""; color := ""; type := "root"; jobs := [] |};
     loaded := false; expanded := false; children := [] |}.

(** A descriptor with a [_class] that [type_map] does not know, without
    [color] and without [jobs]. *)
Definition freestyle_legacy : entry :=
  Entry (Some "hudson.model.FreeStyleProject") (Some "legacy")
        (Some "http://ci/job/legacy/") None None.

Definition folder_team : entry :=
  Entry (Some "com.cloudbees.hudson.plugins.folder.Folder") (Some "team")
        (Some "http://ci/job/team/") None (Some [freestyle_legacy]).

(** The tree mounted on a server that answers with one folder. *)
Definition mounted : JenkinsTree :=
  (Tree.on_mount (λ s, s) (init [Some [folder_team]] false)).2.

(** An application freshly started on a server that does not answer. *)
Definition started : JenkinsTUI :=
  {| current_node := "root"; chicken_mode_enabled := false;
     container := home_panel; directory := Tree.init [] false;
     callbacks := []; awaiting := [] |}.

Definition info_of (n : string) : build_info :=
  {| displayName := n; description := "about " +:+ n; healthReport := [] |}.

(** The same tree after a click on the folder. *)
Definition mounted_open : JenkinsTree := run_clicks (λ s, s) [1] mounted.

End Samples.

(** ** Invariants of the node table *)

Module TreeInv.
Import Tree.

(** [keeps P op]: the method [op] started on a widget that satisfies [P]
    leaves a widget that satisfies [P], whether it returns or raises. *)
Definition keeps (P : JenkinsTree → Prop) {A} (op : M A) : Prop :=
  ∀ t, P t → P (op t).2.

(** The links of the table are consistent: a node is stored under its own
    id, which the counter has reached; its children are nodes of the table
    that name it as their parent, none of them twice; its parent, if any,
    is a node of the table that lists it among its children. *)
Definition linked (t : JenkinsTree) : Prop :=
  ∀ k n, nodes t !! k = Some n →
    k ≤ id t ∧ node_id n = k ∧ NoDup (children n)
    ∧ (∀ c, c ∈ children n → ∃ cn, nodes t !! c = Some cn ∧ parent cn = Some k)
    ∧ (∀ pk, parent n = Some pk → ∃ pn, nodes t !! pk = Some pn ∧ k ∈ children pn).

(** Only a node named ["root"] has the type ["root"]. *)
Definition root_named (t : JenkinsTree) : Prop :=
  ∀ k n, nodes t !! k = Some n → type (data n) = "root" → name (data n) = "root".

(** [grows t t']: [t'] has every node that [t] has allocated, with the
    same id, parent, label and data, with its children of [t] followed
    perhaps by new ones, and loaded if it was loaded in [t]; an id that
    [t] has passed without a node has no node in [t'] either. *)
Definition grows (t t' : JenkinsTree) : Prop :=
  id t ≤ id t' ∧
  ∀ k, k ≤ id t →
    match nodes t !! k with
    | None => nodes t' !! k = None
    | Some n =>
        ∃ n', nodes t' !! k = Some n'
          ∧ node_id n' = node_id n ∧ parent n' = parent n
          ∧ label n' = label n ∧ data n' = data n
          ∧ children n `prefix_of` children n'
          ∧ (loaded n = true → loaded n' = true)
    end.

(** The first key that the loop of [load_jobs] would miss in a
    descriptor; in chicken mode the name is not read. *)
Definition missing_key (chicken : bool) (e : entry) : option string :=
  match k_class e with
  | None => Some "_class"
  | Some _ =>
      if negb chicken && bool_decide (k_name e = None) then Some "name"
      else match k_url e with
           | None => Some "url"
           | Some _ => None
           end
  end.

End TreeInv.

(** ** More concrete servers and trees *)

Module MoreSamples.
Import Tree Samples.

(** A descriptor without [url]. *)
Definition no_url : entry :=
  Entry (Some "org.jenkinsci.plugins.workflow.job.WorkflowJob") (Some "lost")
        None (Some "red") None.

(** A descriptor without [name]. *)
Definition nameless : entry :=
  Entry (Some "org.jenkinsci.plugins.workflow.job.WorkflowJob") None
        (Some "http://ci/job/svc-b/") (Some "blue") None.

(** A folder whose seed has a descriptor without [url] in the middle. *)
Definition folder_broken : entry :=
  Entry (Some "com.cloudbees.hudson.plugins.folder.Folder") (Some "broken")
        (Some "http://ci/job/broken/") None
        (Some [freestyle_legacy; no_url; freestyle_legacy]).

Definition mounted_broken : JenkinsTree :=
  (Tree.on_mount (λ s, s) (init [Some [folder_broken]] false)).2.

(** The nodes made for the two folders when the trees are mounted. *)
Definition node_team : TreeNode := child_of (λ s, s) false 0 1 folder_team.
Definition node_broken : TreeNode := child_of (λ s, s) false 0 1 folder_broken.

End MoreSamples.

(** ** The application and its tree together *)

Module Coordination.
Import App.

(** A message emitted by the tree reaches the handler of the application
    that bears its name. *)
Definition deliver (a : JenkinsTUI) (m : Tree.Message) : JenkinsTUI :=
  match m with
  | Tree.JobClick n u => handle_job_click n u a
  | Tree.RootClick => handle_root_click a
  end.

Section Click.
Variable unquote : string → string.

(** A click on a node of the tree shown by the application: the handler
    of the tree runs, then the application handles what it emitted. *)
Definition tree_click (nid : Tree.NodeID) (a : JenkinsTUI) : JenkinsTUI :=
  let r := Tree.handle_tree_click unquote nid (directory a) in
  let a1 :=
    {| current_node := current_node a;
       chicken_mode_enabled := chicken_mode_enabled a;
       container := container a; directory := r.2;
       callbacks := callbacks a; awaiting := awaiting a |} in
  match r.1 with
  | inr msgs => foldl deliver a1 msgs
  | inl _ => a1
  end.

End Click.

(** The selection that a callback was posted for. *)
Definition target (cb : Callback) : string :=
  match cb with
  | set_home => "root"
  | set_job n _ => n
  end.

(** One turn of a message pump that runs the callbacks one at a time: the
    oldest callback runs to its end, the request of [set_job] being
    answered by [answer] before anything else happens. *)
Definition serial_step (answer : string → string → option build_info)
    (a : JenkinsTUI) : JenkinsTUI :=
  match callbacks a with
  | [] => a
  | set_home :: _ => run_callback a
  | set_job n u :: _ =>
      let a1 := run_callback a in
      resume (length (awaiting a1) - 1) (answer n u) a1
  end.

(** [fuel] turns of the pump. *)
Fixpoint serial (answer : string → string → option build_info) (fuel : nat)
    (a : JenkinsTUI) : JenkinsTUI :=
  match fuel with
  | 0 => a
  | S k => serial answer k (serial_step answer a)
  end.

(** The pump runs until no callback is left. *)
Definition drain (answer : string → string → option build_info)
    (a : JenkinsTUI) : JenkinsTUI :=
  serial answer (length (callbacks a)) a.

(** The panel that a callback displays, if its request is answered. *)
Definition panel_of (chicken : bool) (answer : string → string → option build_info)
    (cb : Callback) : option (list Widget) :=
  match cb with
  | set_home => Some home_panel
  | set_job n u => job_panel chicken u <$> answer n u
  end.

(** The panel displayed is that of the selection: the home panel for the
    selection ["root"], or the panel of a job that has the name selected. *)
Definition shows (answer : string → string → option build_info)
    (a : JenkinsTUI) : Prop :=
  (current_node a = "root" ∧ container a = home_panel)
  ∨ ∃ u bi, answer (current_node a) u = Some bi
            ∧ container a = job_panel (chicken_mode_enabled a) u bi.

(** The events that are clicks. *)
Definition is_click (e : event) : Prop :=
  match e with
  | Root_click | Job_click _ _ => True
  | _ => False
  end.

End Coordination.

(** * Properties *)

(** ** The view coordinator *)

Module AppFacts.
Import App Samples.

Lemma handle_root_click_at_root (a : JenkinsTUI) :
  current_node a = "root" → handle_root_click a = a.
Proof.
  intros Hcur. unfold handle_root_click.
  rewrite bool_decide_eq_false_2; [done | by intros []].
Qed.

Lemma handle_root_click_elsewhere (a : JenkinsTUI) :
  current_node a ≠ "root" →
  handle_root_click a = with_selection "root" set_home a.
Proof.
  intros Hcur. unfold handle_root_click. by rewrite bool_decide_eq_true_2.
Qed.

(** C5. [handle_root_click] is idempotent: a second call in a row changes
    nothing, so the two calls together post the home panel swap at most
    once; the selection is ["root"] afterwards; and when the selection is
    ["root"] already the handler returns the application as it was. *)
Theorem handle_root_click_idempotent (a : JenkinsTUI) :
  let a1 := handle_root_click a in
  let a2 := handle_root_click a1 in
  a2 = a1
  ∧ current_node a2 = "root"
  ∧ (callbacks a2 = callbacks a ∨ callbacks a2 = callbacks a ++ [set_home])
  ∧ container a2 = container a
  ∧ a1 = (if bool_decide (current_node a = "root") then a
          else with_selection "root" set_home a).
Proof.
  cbn zeta.
  assert (Hroot : current_node (handle_root_click a) = "root").
  { destruct (decide (current_node a = "root")) as [Hc|Hc].
    - by rewrite handle_root_click_at_root.
    - by rewrite handle_root_click_elsewhere. }
  rewrite (handle_root_click_at_root (handle_root_click a)) by done.
  split_and!; try done.
  - destruct (decide (current_node a = "root")) as [Hc|Hc].
    + left. by rewrite handle_root_click_at_root.
    + right. by rewrite handle_root_click_elsewhere.
  - destruct (decide (current_node a = "root")) as [Hc|Hc].
    + by rewrite handle_root_click_at_root.
    + by rewrite handle_root_click_elsewhere.
  - case_bool_decide as Hc.
    + by apply handle_root_click_at_root.
    + by apply handle_root_click_elsewhere.
Qed.

Lemma resume_head (a : JenkinsTUI) n u aw bi :
  awaiting a = (n, u) :: aw →
  resume 0 (Some bi) a =
    container_update (job_panel (chicken_mode_enabled a) u bi)
      (with_queues (callbacks a) aw a).
Proof. intros Haw. unfold resume. by rewrite Haw. Qed.

(** C1, as the code has it.  [handle_job_click] selects the job before
    the request is made; [set_job] swaps the panel when its answer arrives
    and compares nothing.  After [A] then [B] are selected the selection
    is [B]; once both requests are answered the panel shows the job whose
    answer came last: [B] when the answers come in the order of the
    requests (also when [A] is answered before the request for [B] is
    made), [A] when they come in the other order. *)
Theorem set_job_last_answer_wins
    (a : JenkinsTUI) (nA uA nB uB : string) (biA biB : build_info) :
  callbacks a = [] → awaiting a = [] →
  nA ≠ current_node a → nB ≠ nA →
  let issued :=
    run [Job_click nA uA; Job_click nB uB; Run_callback; Run_callback] a in
  let in_order := run [Answer 0 (Some biA); Answer 0 (Some biB)] issued in
  let reversed := run [Answer 1 (Some biB); Answer 0 (Some biA)] issued in
  let serial :=
    run [Job_click nA uA; Job_click nB uB; Run_callback; Answer 0 (Some biA);
         Run_callback; Answer 0 (Some biB)] a in
  current_node issued = nB
  ∧ awaiting issued = [(nA, uA); (nB, uB)]
  ∧ container issued = container a
  ∧ (current_node in_order = nB ∧ awaiting in_order = []
     ∧ container in_order = job_panel (chicken_mode_enabled a) uB biB)
  ∧ (current_node reversed = nB ∧ awaiting reversed = []
     ∧ container reversed = job_panel (chicken_mode_enabled a) uA biA)
  ∧ (current_node serial = nB ∧ awaiting serial = []
     ∧ container serial = job_panel (chicken_mode_enabled a) uB biB).
Proof.
  intros Hcb Haw HA HB. destruct a as [cur ch panel dir cbs aw].
  simpl in *. subst cbs aw.
  unfold run; simpl. unfold handle_job_click; simpl.
  rewrite (bool_decide_eq_true_2 (nA ≠ cur)) by done. simpl.
  rewrite (bool_decide_eq_true_2 (nB ≠ nA)) by done. simpl.
  done.
Qed.

Lemma set_job_last_answer_wins_witness :
  let a := started in
  let issued :=
    run [Job_click "A" "http://ci/job/A/"; Job_click "B" "http://ci/job/B/";
         Run_callback; Run_callback] a in
  let in_order :=
    run [Answer 0 (Some (info_of "A")); Answer 0 (Some (info_of "B"))] issued in
  current_node in_order = "B"
  ∧ container in_order = job_panel false "http://ci/job/B/" (info_of "B").
Proof.
  pose proof (set_job_last_answer_wins started "A" "http://ci/job/A/"
                "B" "http://ci/job/B/" (info_of "A") (info_of "B")
                eq_refl eq_refl ltac:(done) ltac:(done)) as H.
  cbn zeta in H. destruct H as (_ & _ & _ & (H1 & _ & H2) & _).
  split; [exact H1 | exact H2].
Defined.

(** C1, as the specification states it, fails.  With [B] selected, the
    answer for [A] is displayed, not discarded; and when the answer for
    [B] comes before the answer for [A], the panel shows [A] after both
    requests are answered, while the selection is [B]. *)
Lemma stale_result_not_discarded :
  let issued :=
    run [Job_click "A" "http://ci/job/A/"; Job_click "B" "http://ci/job/B/";
         Run_callback; Run_callback] started in
  let late := run [Answer 0 (Some (info_of "A"))] issued in
  let both := run [Answer 1 (Some (info_of "B")); Answer 0 (Some (info_of "A"))] issued in
  (current_node late = "B"
   ∧ container late = job_panel false "http://ci/job/A/" (info_of "A"))
  ∧ (current_node both = "B" ∧ awaiting both = []
     ∧ container both = job_panel false "http://ci/job/A/" (info_of "A")
     ∧ container both ≠ job_panel false "http://ci/job/B/" (info_of "B")).
Proof. vm_compute. split_and!; try done. Qed.

End AppFacts.

(** ** The name of a job *)

Module NameFacts.
Import PyStr Tree.

Lemma str_app_nil_l (s : string) : "" +:+ s = s.
Proof. reflexivity. Qed.

Lemma str_app_cons (a : ascii) (s t : string) :
  String a s +:+ t = String a (s +:+ t).
Proof. reflexivity. Qed.

Lemma str_app_nil_r (s : string) : s +:+ "" = s.
Proof. induction s as [|a s IH]; [done|]. by rewrite str_app_cons, IH. Qed.

Lemma str_app_assoc (s t u : string) : (s +:+ t) +:+ u = s +:+ (t +:+ u).
Proof. induction s as [|a s IH]; [done|]. by rewrite !str_app_cons, IH. Qed.

Lemma str_length_app (s t : string) :
  String.length (s +:+ t) = String.length s + String.length t.
Proof. induction s as [|a s IH]; [done|]. rewrite str_app_cons. simpl. by rewrite IH. Qed.

Lemma startswith_app_l (sep s : string) : startswith sep (sep +:+ s) = true.
Proof.
  induction sep as [|a sep IH]; [done|]. rewrite str_app_cons. simpl.
  by rewrite bool_decide_eq_true_2, IH.
Qed.

(** [startswith] reads no further than the length of the prefix. *)
Lemma startswith_short (sep : string) :
  ∀ x y, String.length sep ≤ String.length x →
         startswith sep (x +:+ y) = startswith sep x.
Proof.
  induction sep as [|a sep IH]; intros x y Hlen; [done|].
  destruct x as [|b x]; simpl in Hlen; [lia|].
  rewrite str_app_cons. simpl. rewrite IH by lia. done.
Qed.

Lemma startswith_app_mono (sep : string) :
  ∀ x y, startswith sep x = true → startswith sep (x +:+ y) = true.
Proof.
  induction sep as [|a sep IH]; intros x y H; [done|].
  destruct x as [|b x]; [done|]. rewrite str_app_cons. simpl in *.
  apply andb_true_iff in H as [-> H]. simpl. by apply IH.
Qed.

Lemma split_go_skip (sep : string) (p : string) :
  ∀ cur rest,
    split_go sep (String.length p) cur (p +:+ rest) = split_go sep 0 cur rest.
Proof.
  induction p as [|a p IH]; intros cur rest; [done|].
  rewrite str_app_cons. simpl. apply IH.
Qed.

Lemma split_go_sep (sep cur rest : string) :
  sep ≠ "" →
  split_go sep 0 cur (sep +:+ rest) = cur :: split_go sep 0 "" rest.
Proof.
  intros Hne. destruct sep as [|a sep]; [done|].
  pose proof (startswith_app_l (String a sep) rest) as Hs.
  rewrite str_app_cons in *. cbn [split_go]. rewrite Hs.
  f_equal. cbn [String.length]. rewrite Nat.sub_1_r. simpl Nat.pred.
  apply split_go_skip.
Qed.

Section Pieces.
(** The separator, as its last character [l] after the others, [pre]. *)
Variables (pre : string) (l : ascii).
Let sep : string := pre +:+ String l "".

Lemma sep_length : String.length sep = String.length pre + 1.
Proof. unfold sep. by rewrite str_length_app. Qed.

Lemma sep_ne : sep ≠ "".
Proof. intros H. pose proof sep_length as Hl. rewrite H in Hl. simpl in Hl. lia. Qed.

Lemma split_go_piece (w : string) :
  ∀ cur rest, occurs sep (w +:+ pre) = false →
    split_go sep 0 cur (w +:+ sep +:+ rest) = (cur +:+ w) :: split_go sep 0 "" rest.
Proof.
  induction w as [|c w IH]; intros cur rest Hcl.
  - rewrite str_app_nil_l, str_app_nil_r. apply split_go_sep, sep_ne.
  - rewrite str_app_cons in Hcl. cbn [occurs] in Hcl.
    apply orb_false_iff in Hcl as [Hs Hcl].
    assert (Hs' : startswith sep (String c (w +:+ sep +:+ rest)) = false).
    { rewrite <- Hs.
      replace (String c (w +:+ sep +:+ rest))
        with (String c (w +:+ pre) +:+ (String l "" +:+ rest)).
      - apply startswith_short. simpl. rewrite str_length_app, sep_length. lia.
      - rewrite str_app_cons. f_equal. unfold sep.
        by rewrite !str_app_assoc. }
    rewrite str_app_cons. cbn [split_go]. rewrite Hs'.
    rewrite (IH _ _ Hcl). f_equal. by rewrite str_app_assoc.
Qed.

Lemma split_go_last (w : string) :
  ∀ cur, occurs sep (w +:+ pre) = false → split_go sep 0 cur w = [cur +:+ w].
Proof.
  induction w as [|c w IH]; intros cur Hcl.
  - by rewrite str_app_nil_r.
  - rewrite str_app_cons in Hcl. cbn [occurs] in Hcl.
    apply orb_false_iff in Hcl as [Hs Hcl].
    assert (Hs' : startswith sep (String c w) = false).
    { destruct (startswith sep (String c w)) eqn:E; [|done].
      apply (startswith_app_mono _ _ pre) in E.
      rewrite str_app_cons in E. congruence. }
    cbn [split_go]. rewrite Hs'. rewrite (IH _ Hcl). by rewrite str_app_assoc.
Qed.

End Pieces.

Lemma no_slash_occurs (w : string) :
  no_slash w = true → occurs "/job/" (w +:+ "/job") = false.
Proof.
  induction w as [|c w IH]; intros H; [done|].
  simpl in H. apply andb_true_iff in H as [Hc H].
  rewrite str_app_cons. cbn [occurs]. rewrite (IH H), orb_false_r.
  apply negb_true_iff, bool_decide_eq_false in Hc.
  cbn [startswith]. rewrite bool_decide_eq_false_2; [done|congruence].
Qed.

Lemma split_go_piece_job (w cur rest : string) :
  job_free w →
  split_go "/job/" 0 cur (w +:+ "/job/" +:+ rest)
  = (cur +:+ w) :: split_go "/job/" 0 "" rest.
Proof. exact (split_go_piece "/job" "/" w cur rest). Qed.

Lemma split_go_last_job (w cur : string) :
  job_free w → split_go "/job/" 0 cur w = [cur +:+ w].
Proof. exact (split_go_last "/job" "/" w cur). Qed.

Lemma split_job_path (segs : list string) :
  ∀ w cur, Forall segment segs → job_free w →
    split_go "/job/" 0 cur (w +:+ job_path segs) = (cur +:+ w) :: segs.
Proof.
  induction segs as [|s segs IH]; intros w cur Hsegs Hw.
  - simpl. rewrite str_app_nil_r. by apply split_go_last_job.
  - apply Forall_cons in Hsegs as [[_ Hs] Hsegs]. cbn [job_path].
    rewrite (split_go_piece_job w cur _ Hw). f_equal.
    rewrite (IH s "" Hsegs (no_slash_occurs _ Hs)). done.
Qed.

Lemma rstrip_keep (chars : string) (x y : string) :
  rstrip chars y ≠ "" → rstrip chars (x +:+ y) = x +:+ rstrip chars y.
Proof.
  intros Hy. induction x as [|c x IH]; [done|].
  rewrite !str_app_cons. cbn [rstrip]. rewrite IH.
  destruct (x +:+ rstrip chars y) eqn:E; [|done].
  destruct x; [|done]. by rewrite str_app_nil_l in E.
Qed.

Lemma rstrip_segment (w : string) :
  segment w → rstrip "/" (w +:+ "/") = w.
Proof.
  intros [Hne Hns]. induction w as [|c w IH]; [done|].
  simpl in Hns. apply andb_true_iff in Hns as [Hc Hns].
  apply negb_true_iff in Hc.
  rewrite str_app_cons. cbn [rstrip].
  destruct w as [|d w].
  - rewrite str_app_nil_l. simpl. by rewrite Hc.
  - rewrite IH by done. done.
Qed.

Lemma rstrip_job_path (segs : list string) :
  ∀ x, segs ≠ [] → Forall segment segs →
    rstrip "/" (x +:+ job_path segs +:+ "/") = x +:+ job_path segs.
Proof.
  induction segs as [|s segs IH]; intros x Hne Hsegs; [done|].
  apply Forall_cons in Hsegs as [Hs Hsegs]. cbn [job_path].
  destruct segs as [|s2 segs].
  - simpl job_path. rewrite str_app_nil_r.
    replace (x +:+ ("/job/" +:+ s) +:+ "/") with ((x +:+ "/job/") +:+ (s +:+ "/"))
      by (by rewrite !str_app_assoc).
    rewrite rstrip_keep; rewrite rstrip_segment by done.
    + by rewrite str_app_assoc.
    + by destruct Hs.
  - replace (x +:+ ("/job/" +:+ s +:+ job_path (s2 :: segs)) +:+ "/")
      with ((x +:+ "/job/" +:+ s) +:+ job_path (s2 :: segs) +:+ "/")
      by (by rewrite !str_app_assoc).
    rewrite IH by done. by rewrite !str_app_assoc.
Qed.

(** C2, as the code has it.  For a url made of a base, which does not
    begin with a slash and in which no ["/job/"] begins, followed by
    ["/job/" s] for each of the segments [s] of the path and a final
    slash, the name is the segments joined by slashes: all the segments
    after the first ["/job/"] of the url, those of a folder in which the
    server is rooted included. *)
Theorem full_name_job_url (base : string) (segs : list string) :
  base ≠ "" → startswith "/" base = false →
  job_free base →
  segs ≠ [] → Forall segment segs →
  full_name (base +:+ job_path segs +:+ "/") = join "/" segs.
Proof.
  intros Hb Hs Hcl Hne Hsegs. unfold full_name, strip.
  assert (Hl : lstrip "/" (base +:+ job_path segs +:+ "/")
               = base +:+ job_path segs +:+ "/").
  { destruct base as [|c base]; [done|]. rewrite str_app_cons. simpl in *.
    apply andb_false_iff in Hs as [Hs|Hs]; [|done].
    apply bool_decide_eq_false in Hs.
    rewrite bool_decide_eq_false_2; [done|congruence]. }
  rewrite Hl. rewrite <- str_app_assoc, (str_app_assoc base).
  rewrite rstrip_job_path by done.
  unfold split. rewrite (split_job_path segs base "" Hsegs Hcl). done.
Qed.

Lemma full_name_job_url_witness :
  let base := "http://ci" in
  let segs := ["team"; "svc-a"] in
  (base ≠ "" ∧ startswith "/" base = false ∧ job_free base
   ∧ segs ≠ [] ∧ Forall segment segs)
  ∧ full_name (base +:+ job_path segs +:+ "/") = join "/" segs.
Proof.
  cbn zeta.
  assert (H1 : "http://ci" ≠ "") by done.
  assert (H2 : startswith "/" "http://ci" = false) by reflexivity.
  assert (H3 : job_free "http://ci") by reflexivity.
  assert (H4 : ["team"; "svc-a"] ≠ []) by done.
  assert (H5 : Forall segment ["team"; "svc-a"])
    by (repeat constructor; done).
  split; [done|]. exact (full_name_job_url _ _ H1 H2 H3 H4 H5).
Defined.

(** C2, as the specification states it, fails: for a server whose base is
    the folder [team], the name of the job [svc-a] keeps the segment
    [team]. *)
Lemma full_name_keeps_base_folder :
  full_name "http://ci/job/team/job/svc-a/" = "team/svc-a"
  ∧ full_name "http://ci/job/team/job/svc-a/" ≠ "svc-a"
  ∧ full_name ".../job/team/job/svc-a/" = "team/svc-a".
Proof. split_and!; [reflexivity | by vm_compute | reflexivity]. Qed.

End NameFacts.

(** ** The tree widget *)

Module TreeFacts.
Import PyStr Tree Samples.

Lemma bind_inr {A B} (m : M A) (k : A → M B) t a t' :
  m t = (inr a, t') → bind m k t = k a t'.
Proof. intros H. unfold bind. by rewrite H. Qed.

Lemma bind_inl {A B} (m : M A) (k : A → M B) t e t' :
  m t = (inl e, t') → bind m k t = (inl e, t').
Proof. intros H. unfold bind. by rewrite H. Qed.

Lemma node_Some nid t p : nodes t !! nid = Some p → node nid t = (inr p, t).
Proof. intros H. unfold node. by rewrite H. Qed.

Lemma touches_ret {A} m (a : A) : touches_only m (ret a).
Proof. intros t. done. Qed.

Lemma touches_raise {A} m e : touches_only m (raise (A := A) e).
Proof. intros t. done. Qed.

Lemma touches_gets {A} m (f : JenkinsTree → A) : touches_only m (gets f).
Proof. intros t. done. Qed.

Lemma touches_bind {A B} m (op : M A) (k : A → M B) :
  touches_only m op → (∀ a, touches_only m (k a)) → touches_only m (bind op k).
Proof.
  intros Hop Hk t. unfold bind.
  destruct (Hop t) as [Hid Hfr].
  destruct (op t) as [[e|a] t1] eqn:E; simpl in *; [done|].
  destruct (Hk a t1) as [Hid' Hfr']. split; [lia|].
  intros j Hj Hne. rewrite Hfr' by (done || lia). by apply Hfr.
Qed.

Lemma touches_getitem {A} m key (o : option A) : touches_only m (getitem key o).
Proof. destruct o; [apply touches_ret | apply touches_raise]. Qed.

Lemma touches_node m nid : touches_only m (node nid).
Proof. intros t. unfold node. by destruct (nodes t !! nid). Qed.

Lemma touches_get_jobs m : touches_only m get_jobs.
Proof. intros t. unfold get_jobs. by destruct (client t) as [|[js|] rest]. Qed.

Lemma touches_add m lbl d : touches_only m (add m lbl d).
Proof.
  intros t. unfold add. destruct (nodes t !! m) as [p|]; [|done]. simpl.
  split; [lia|]. intros k Hk Hne.
  rewrite lookup_insert_ne by lia. by rewrite lookup_insert_ne.
Qed.

Lemma touches_alter m (f : JenkinsTree → TreeNode → TreeNode) :
  touches_only m (modify (λ t, set_nodes (alter (f t) m (nodes t)) (id t) t)).
Proof.
  intros t. simpl. split; [done|]. intros k _ Hne. by rewrite lookup_alter_ne.
Qed.

Lemma touches_set_loaded m : touches_only m (set_loaded m).
Proof. apply (touches_alter m (λ _, with_loaded true)). Qed.

Lemma touches_expand m : touches_only m (expand m).
Proof. apply (touches_alter m (λ _, with_expanded true)). Qed.

Lemma touches_toggle m : touches_only m (toggle m).
Proof. apply (touches_alter m (λ _ n, with_expanded (negb (expanded n)) n)). Qed.

Create HintDb touches.

#[local] Hint Resolve touches_ret touches_raise touches_gets touches_getitem
  touches_node touches_get_jobs touches_add touches_set_loaded touches_expand
  touches_toggle : touches.

Ltac touches :=
  repeat first
    [ solve [eauto with touches]
    | apply touches_bind; [|intros ?]
    | match goal with |- touches_only _ (if ?b then _ else _) => destruct b end ].

(** No type that [load_jobs] gives to a node is the type of the root. *)
Lemma type_map_not_root (cls : string) : default "" (type_map !! cls) ≠ "root".
Proof.
  unfold type_map. rewrite !lookup_insert, lookup_empty.
  repeat case_decide; done.
Qed.

Section Facts.
Variable unquote : string → string.

Lemma touches_load_entry m e : touches_only m (load_entry unquote m e).
Proof. unfold load_entry. touches. Qed.

Lemma touches_load_entries m js : touches_only m (load_entries unquote m js).
Proof.
  induction js as [|e js IH]; simpl; [apply touches_ret|].
  apply touches_bind; [apply touches_load_entry | done].
Qed.

Lemma touches_load_jobs m : touches_only m (load_jobs unquote m).
Proof. unfold load_jobs. pose proof (touches_load_entries m). touches. Qed.

Lemma touches_handle_tree_click m : touches_only m (handle_tree_click unquote m).
Proof.
  unfold handle_tree_click. pose proof (touches_load_jobs m). touches.
Qed.

Lemma with_children_id (p : TreeNode) : with_children (children p) p = p.
Proof. by destruct p. Qed.

Lemma load_entry_ok nid e t p :
  nodes t !! nid = Some p → described e →
  load_entry unquote nid e t =
    (inr tt,
     set_nodes
       (<[id t + 1 := child_of unquote (chicken_mode_enabled t) nid (id t + 1) e]>
          (<[nid := with_children (children p ++ [id t + 1]) p]> (nodes t)))
       (id t + 1) t).
Proof.
  intros Hp ([cls Hc] & [nm Hn] & [u Hu]).
  destruct e as [c n u' col js]; simpl in *; subst.
  unfold load_entry, bind, getitem, gets, ret, add, child_of; simpl.
  destruct (chicken_mode_enabled t); simpl; by rewrite Hp.
Qed.

Lemma load_entries_ok nid js :
  ∀ t p, nodes t !! nid = Some p → nid ≤ id t → Forall described js →
  ∃ t', load_entries unquote nid js t = (inr tt, t')
    ∧ id t' = id t + length js
    ∧ client t' = client t
    ∧ chicken_mode_enabled t' = chicken_mode_enabled t
    ∧ nodes t' !! nid =
        Some (with_children (children p ++ seq (id t + 1) (length js)) p)
    ∧ (∀ i e, js !! i = Some e →
         nodes t' !! (id t + 1 + i) =
           Some (child_of unquote (chicken_mode_enabled t) nid (id t + 1 + i) e))
    ∧ (∀ k, k ≤ id t → k ≠ nid → nodes t' !! k = nodes t !! k).
Proof.
  induction js as [|e js IH]; intros t p Hp Hle Hd.
  - exists t. simpl. rewrite Nat.add_0_r, app_nil_r, with_children_id.
    split_and!; try done.
  - apply Forall_cons in Hd as [He Hd]. simpl. unfold bind at 1.
    rewrite (load_entry_ok nid e t p Hp He).
    set (p1 := with_children (children p ++ [id t + 1]) p).
    set (t1 := set_nodes _ _ t).
    assert (Hp1 : nodes t1 !! nid = Some p1).
    { simpl. rewrite lookup_insert_ne by lia. by rewrite lookup_insert_eq. }
    destruct (IH t1 p1 Hp1) as (t' & Hrun & Hid & Hcl & Hch & Hn & Hnew & Hfr);
      [simpl; lia | done |].
    exists t'. simpl in *. split_and!; try done.
    + lia.
    + rewrite Hn. f_equal. unfold p1. simpl. rewrite <- app_assoc. simpl.
      by replace (id t + 1 + 1) with (S (id t + 1)) by lia.
    + intros [|i] e' Hi; simpl in Hi.
      * injection Hi as <-. rewrite Nat.add_0_r.
        rewrite Hfr by lia. by rewrite lookup_insert_eq.
      * replace (id t + 1 + S i) with (id t + 1 + 1 + i) by lia.
        by apply Hnew.
    + intros k Hk Hne. rewrite Hfr by lia.
      rewrite lookup_insert_ne by lia. by rewrite lookup_insert_ne.
Qed.

Lemma pending_jobs_Some t p js :
  pending_jobs t p = Some js →
  (if bool_decide (type (data p) = "root") then get_jobs
   else ret (jobs (data p))) t = (inr js, after_fetch t p).
Proof.
  unfold pending_jobs, after_fetch. case_bool_decide; [|by intros [= <-]].
  unfold get_jobs. destruct (client t) as [|[js'|] rest]; by intros [= <-].
Qed.

Lemma load_jobs_ok nid t p js :
  nodes t !! nid = Some p → nid ≤ id t →
  pending_jobs t p = Some js → Forall described js →
  ∃ t', load_jobs unquote nid t = (inr tt, t')
    ∧ id t' = id t + length js
    ∧ client t' = client (after_fetch t p)
    ∧ nodes t' !! nid =
        Some (loaded_expanded (children p ++ seq (id t + 1) (length js)) p)
    ∧ (∀ i e, js !! i = Some e →
         nodes t' !! (id t + 1 + i) =
           Some (child_of unquote (chicken_mode_enabled t) nid (id t + 1 + i) e))
    ∧ (∀ k, k ≤ id t → k ≠ nid → nodes t' !! k = nodes t !! k).
Proof.
  intros Hp Hle Hjs Hd.
  set (t0 := after_fetch t p).
  assert (Hn0 : nodes t0 = nodes t) by (unfold t0, after_fetch; by case_bool_decide).
  assert (Hi0 : id t0 = id t) by (unfold t0, after_fetch; by case_bool_decide).
  assert (Hc0 : chicken_mode_enabled t0 = chicken_mode_enabled t)
    by (unfold t0, after_fetch; by case_bool_decide).
  destruct (load_entries_ok nid js t0 p)
    as (t1 & Hrun & Hid & Hcl & Hch & Hn & Hnew & Hfr);
    [by rewrite Hn0 | lia | done |].
  eexists. split.
  { unfold load_jobs. rewrite (bind_inr _ _ _ _ _ (node_Some _ _ _ Hp)).
    rewrite (bind_inr _ _ _ _ _ (pending_jobs_Some _ _ _ Hjs)).
    fold t0. rewrite (bind_inr _ _ _ _ _ Hrun). reflexivity. }
  simpl. rewrite Hi0, Hc0, Hn0 in *. split_and!; try done.
  - by rewrite !lookup_alter_eq, Hn.
  - intros i e Hi. rewrite !lookup_alter_ne by lia. by apply Hnew.
  - intros k Hk Hne. rewrite !lookup_alter_ne by done. by apply Hfr.
Qed.

(** C6. When the call to the server raises during [load_jobs] for a node
    of type root, the exception reaches the caller, and the table of nodes
    and the counter are as before: the node is still not loaded and no
    child has been added to it or to any other node. *)
Theorem load_jobs_fetch_failure nid t p :
  nodes t !! nid = Some p → type (data p) = "root" →
  pending_jobs t p = None →
  ∃ t', load_jobs unquote nid t = (inl FetchError, t')
    ∧ nodes t' = nodes t ∧ id t' = id t
    ∧ nodes t' !! nid = Some p
    ∧ client t' = tail (client t).
Proof.
  intros Hp Hty Hfail. unfold pending_jobs in Hfail.
  rewrite bool_decide_eq_true_2 in Hfail by done.
  assert (Hget : get_jobs t =
                 (inl FetchError,
                  {| nodes := nodes t; id := id t; client := tail (client t);
                     chicken_mode_enabled := chicken_mode_enabled t |})).
  { unfold get_jobs. destruct (client t) as [|[js|] rest] eqn:Hc; [|done..].
    destruct t; simpl in *. by subst. }
  eexists. split.
  { unfold load_jobs. rewrite (bind_inr _ _ _ _ _ (node_Some _ _ _ Hp)).
    rewrite bool_decide_eq_true_2 by done.
    rewrite (bind_inl _ _ _ _ _ Hget). reflexivity. }
  done.
Qed.

(** C7. For descriptors that have their [_class], [name] and [url],
    [load_jobs] returns without raising, whatever their [_class] is and
    whether or not they have a [color]: the node made for a descriptor
    without [color] has the color ["none"], the node made for a descriptor
    whose [_class] is not a key of [type_map] has the empty type. *)
Theorem load_jobs_defaults nid t p js :
  nodes t !! nid = Some p → nid ≤ id t →
  pending_jobs t p = Some js → Forall described js →
  ∃ t', load_jobs unquote nid t = (inr tt, t')
    ∧ ∀ i e, js !! i = Some e →
        ∃ c, nodes t' !! (id t + 1 + i) = Some c
          ∧ parent c = Some nid
          ∧ url (data c) = default "" (k_url e)
          ∧ (k_color e = None → color (data c) = "none")
          ∧ (∀ col, k_color e = Some col → color (data c) = col)
          ∧ (∀ cls, k_class e = Some cls → type_map !! cls = None →
               type (data c) = "")
          ∧ (∀ cls ty, k_class e = Some cls → type_map !! cls = Some ty →
               type (data c) = ty).
Proof.
  intros Hp Hle Hjs Hd.
  destruct (load_jobs_ok nid t p js) as (t' & Hrun & _ & _ & _ & Hnew & _);
    [done..|].
  exists t'. split; [done|]. intros i e Hi.
  eexists. split; [by apply Hnew|]. simpl. split_and!; try done.
  - by intros ->.
  - by intros col ->.
  - intros cls -> Hcls. simpl. by rewrite Hcls.
  - intros cls ty -> Hcls. simpl. by rewrite Hcls.
Qed.

(** C10. The node made for a descriptor without [jobs] has the empty
    list as its seed; [load_jobs] on that node does not call the server,
    adds no node, and leaves it loaded and expanded, without children. *)
Theorem load_jobs_empty_seed nid t p e :
  nodes t !! nid = Some p → nid ≤ id t →
  described e → k_jobs e = None →
  let t1 := (load_entry unquote nid e t).2 in
  let c := id t + 1 in
  ∃ n t2, nodes t1 !! c = Some n
    ∧ jobs (data n) = [] ∧ loaded n = false ∧ children n = []
    ∧ load_jobs unquote c t1 = (inr tt, t2)
    ∧ nodes t2 !! c = Some (with_expanded true (with_loaded true n))
    ∧ client t2 = client t1 ∧ client t1 = client t
    ∧ id t2 = id t1
    ∧ ∀ k, k ≠ c → nodes t2 !! k = nodes t1 !! k.
Proof.
  intros Hp Hle He Hj. cbn zeta. rewrite (load_entry_ok nid e t p Hp He).
  set (t1 := set_nodes _ _ t). cbn [snd].
  set (n := child_of unquote (chicken_mode_enabled t) nid (id t + 1) e).
  assert (Hn : nodes t1 !! (id t + 1) = Some n) by (simpl; by rewrite lookup_insert_eq).
  assert (Hjn : jobs (data n) = []) by (simpl; by rewrite Hj).
  assert (Hty : type (data n) ≠ "root").
  { simpl. destruct He as ([cls ->] & _). apply type_map_not_root. }
  exists n. eexists. do 4 (split; [done|]). split.
  { unfold load_jobs. rewrite (bind_inr _ _ _ _ _ (node_Some _ _ _ Hn)).
    rewrite bool_decide_eq_false_2 by done. rewrite Hjn. reflexivity. }
  split_and!; try done.
  - simpl. by rewrite !lookup_alter_eq, lookup_insert_eq.
  - intros k Hk. simpl. by rewrite !lookup_alter_ne.
Qed.

(** The branches of [handle_tree_click]. *)
Lemma handle_tree_click_job nid t n :
  nodes t !! nid = Some n → type (data n) = "job" →
  handle_tree_click unquote nid t =
    (inr [JobClick (name (data n)) (url (data n))], t).
Proof.
  intros Hn Hty. unfold handle_tree_click.
  rewrite (bind_inr _ _ _ _ _ (node_Some _ _ _ Hn)).
  by rewrite bool_decide_eq_true_2.
Qed.

Lemma handle_tree_click_root nid t n :
  nodes t !! nid = Some n → type (data n) ≠ "job" → name (data n) = "root" →
  handle_tree_click unquote nid t = (inr [RootClick], t).
Proof.
  intros Hn Hty Hnm. unfold handle_tree_click.
  rewrite (bind_inr _ _ _ _ _ (node_Some _ _ _ Hn)).
  rewrite bool_decide_eq_false_2 by done. by rewrite bool_decide_eq_true_2.
Qed.

Lemma handle_tree_click_unloaded nid t n :
  nodes t !! nid = Some n → type (data n) ≠ "job" → name (data n) ≠ "root" →
  loaded n = false →
  handle_tree_click unquote nid t =
    (load_jobs unquote nid ;; expand nid ;; ret []) t.
Proof.
  intros Hn Hty Hnm Hl. unfold handle_tree_click.
  rewrite (bind_inr _ _ _ _ _ (node_Some _ _ _ Hn)).
  rewrite !bool_decide_eq_false_2 by done. by rewrite Hl.
Qed.

Lemma handle_tree_click_loaded nid t n :
  nodes t !! nid = Some n → type (data n) ≠ "job" → name (data n) ≠ "root" →
  loaded n = true →
  handle_tree_click unquote nid t = (inr [], (toggle nid t).2).
Proof.
  intros Hn Hty Hnm Hl. unfold handle_tree_click.
  rewrite (bind_inr _ _ _ _ _ (node_Some _ _ _ Hn)).
  rewrite !bool_decide_eq_false_2 by done. by rewrite Hl.
Qed.

Lemma click_keeps_loaded nid n t m :
  nodes t !! nid = Some n → nid ≤ id t → loaded n = true →
  let t' := (handle_tree_click unquote m t).2 in
  nid ≤ id t' ∧
  ∃ n', nodes t' !! nid = Some n' ∧ loaded n' = true
        ∧ children n' = children n ∧ data n' = data n.
Proof.
  intros Hn Hle Hl. cbn zeta.
  destruct (touches_handle_tree_click m t) as [Hid Hfr].
  split; [lia|].
  destruct (decide (m = nid)) as [->|Hne].
  - destruct (decide (type (data n) = "job")) as [Hty|Hty].
    { rewrite (handle_tree_click_job _ _ _ Hn Hty). eauto. }
    destruct (decide (name (data n) = "root")) as [Hnm|Hnm].
    { rewrite (handle_tree_click_root _ _ _ Hn Hty Hnm). eauto. }
    rewrite (handle_tree_click_loaded _ _ _ Hn Hty Hnm Hl). simpl.
    rewrite lookup_alter_eq, Hn. simpl. eauto.
  - rewrite Hfr by done. eauto.
Qed.

Lemma clicks_keep_loaded nid clicks :
  ∀ t n, nodes t !! nid = Some n → nid ≤ id t → loaded n = true →
  (∃ n', nodes (run_clicks unquote clicks t) !! nid = Some n' ∧ loaded n' = true
         ∧ children n' = children n ∧ data n' = data n)
  ∧ transitions unquote nid clicks t = 0.
Proof.
  induction clicks as [|m clicks IH]; intros t n Hn Hle Hl.
  { split; [|done]. exists n. by simpl. }
  destruct (click_keeps_loaded nid n t m Hn Hle Hl) as (Hle' & n' & Hn' & Hl' & Hc' & Hd').
  destruct (IH _ n' Hn' Hle' Hl') as [(n'' & ? & ? & ? & ?) Htr].
  split.
  - exists n''. simpl. split_and!; [done..|congruence|congruence].
  - assert (Hat : loaded_at nid t = true) by (unfold loaded_at; by rewrite Hn).
    cbn [transitions]. by rewrite Hat, Htr.
Qed.

(** C3, at the input where the code departs from it.  The server has a
    folder named [root]; after the tree is mounted, the node of the folder
    has the type ["folder"] and is not loaded, yet a click on it emits
    [RootClick] and leaves the node as it is: the test is on the name of
    the node, where [load_jobs] and [render_tree_label] test its type. *)
Theorem click_on_folder_named_root :
  let t := (on_mount unquote (init [Some [folder_named_root]] false)).2 in
  ∃ n, nodes t !! 1 = Some n
    ∧ type (data n) = "folder" ∧ name (data n) = "root"
    ∧ loaded n = false ∧ jobs (data n) = [job_svc_a]
    ∧ handle_tree_click unquote 1 t = (inr [RootClick], t).
Proof.
  cbn zeta. eexists. split; [vm_compute; reflexivity|].
  split_and!; reflexivity.
Qed.

End Facts.

Lemma load_jobs_fetch_failure_witness :
  let t := init [None; Some [folder_team]] false in
  (nodes t !! 0 = Some root_node ∧ type (data root_node) = "root"
   ∧ pending_jobs t root_node = None)
  ∧ ∃ t', load_jobs (λ s, s) 0 t = (inl FetchError, t')
      ∧ nodes t' = nodes t ∧ id t' = id t
      ∧ nodes t' !! 0 = Some root_node
      ∧ client t' = tail (client t).
Proof.
  cbn zeta.
  assert (H1 : nodes (init [None; Some [folder_team]] false) !! 0 = Some root_node)
    by reflexivity.
  assert (H2 : type (data root_node) = "root") by reflexivity.
  assert (H3 : pending_jobs (init [None; Some [folder_team]] false) root_node = None)
    by reflexivity.
  split; [done|]. exact (load_jobs_fetch_failure (λ s, s) 0 _ _ H1 H2 H3).
Defined.

Lemma load_jobs_defaults_witness :
  let t := init [Some [freestyle_legacy; folder_team]] false in
  let js := [freestyle_legacy; folder_team] in
  (nodes t !! 0 = Some root_node ∧ 0 ≤ id t
   ∧ pending_jobs t root_node = Some js ∧ Forall described js)
  ∧ ∃ t', load_jobs (λ s, s) 0 t = (inr tt, t')
    ∧ ∀ i e, js !! i = Some e →
        ∃ c, nodes t' !! (id t + 1 + i) = Some c
          ∧ parent c = Some 0
          ∧ url (data c) = default "" (k_url e)
          ∧ (k_color e = None → color (data c) = "none")
          ∧ (∀ col, k_color e = Some col → color (data c) = col)
          ∧ (∀ cls, k_class e = Some cls → type_map !! cls = None →
               type (data c) = "")
          ∧ (∀ cls ty, k_class e = Some cls → type_map !! cls = Some ty →
               type (data c) = ty).
Proof.
  cbn zeta.
  assert (H1 : nodes (init [Some [freestyle_legacy; folder_team]] false) !! 0
               = Some root_node) by reflexivity.
  assert (H2 : 0 ≤ id (init [Some [freestyle_legacy; folder_team]] false))
    by (simpl; lia).
  assert (H3 : pending_jobs (init [Some [freestyle_legacy; folder_team]] false)
                 root_node = Some [freestyle_legacy; folder_team]) by reflexivity.
  assert (H4 : Forall described [freestyle_legacy; folder_team])
    by (repeat constructor; eexists; reflexivity).
  split; [done|]. exact (load_jobs_defaults (λ s, s) 0 _ _ _ H1 H2 H3 H4).
Defined.

Lemma load_jobs_empty_seed_witness :
  let t := init [] false in
  let e := freestyle_legacy in
  (nodes t !! 0 = Some root_node ∧ 0 ≤ id t ∧ described e ∧ k_jobs e = None)
  ∧ let t1 := (load_entry (λ s, s) 0 e t).2 in
    let c := id t + 1 in
    ∃ n t2, nodes t1 !! c = Some n
      ∧ jobs (data n) = [] ∧ loaded n = false ∧ children n = []
      ∧ load_jobs (λ s, s) c t1 = (inr tt, t2)
      ∧ nodes t2 !! c = Some (with_expanded true (with_loaded true n))
      ∧ client t2 = client t1 ∧ client t1 = client t
      ∧ id t2 = id t1
      ∧ ∀ k, k ≠ c → nodes t2 !! k = nodes t1 !! k.
Proof.
  cbn zeta.
  assert (H1 : nodes (init [] false) !! 0 = Some root_node) by reflexivity.
  assert (H2 : 0 ≤ id (init [] false)) by (simpl; lia).
  assert (H3 : described freestyle_legacy)
    by (repeat split; eexists; reflexivity).
  assert (H4 : k_jobs freestyle_legacy = None) by reflexivity.
  split; [done|]. exact (load_jobs_empty_seed (λ s, s) 0 _ _ _ H1 H2 H3 H4).
Defined.

Example mounted_click_loads :
  transitions (λ s, s) 1 [1; 1; 2; 1] mounted = 1
  ∧ loaded_at 1 mounted = false
  ∧ loaded_at 1 mounted_open = true
  ∧ (children <$> nodes (run_clicks (λ s, s) [1] mounted) !! 1) = Some [2]
  ∧ (children <$> nodes (run_clicks (λ s, s) [1; 1; 2; 1] mounted) !! 1) = Some [2].
Proof. vm_compute. done. Qed.

End TreeFacts.

(** ** Refreshing the tree *)

Module RefreshFacts.
Import Tree App Samples TreeFacts.

Section Refresh.
Variable unquote : string → string.

(** C9, at the input where the code departs from it.  In every state of
    the application [action_refresh_tree] raises [TypeError]: the widget
    is constructed with the keyword [name], which [JenkinsTree.__init__]
    does not have.  Nothing is replaced: the tree, with its nodes, is the
    one there was, and so are the selection and the panel.  Had the
    constructor been called with [client] alone, the tree would have
    been replaced by a new one mounted on the client. *)
Theorem action_refresh_tree_raises (a : JenkinsTUI) :
  action_refresh_tree unquote a = (inl (TypeError "name"), a)
  ∧ new_JenkinsTree ["client"; "name"] (client (directory a))
      (App.chicken_mode_enabled a) = inl (TypeError "name")
  ∧ new_JenkinsTree ["client"] (client (directory a)) (App.chicken_mode_enabled a)
    = inr (init (client (directory a)) (App.chicken_mode_enabled a)).
Proof. split_and!; reflexivity. Qed.

End Refresh.

End RefreshFacts.

(** ** The cache of the label renderer *)

Module LruFacts.
Import LruCache.

Section Cache.
Context {K V : Type} `{EqDecision K}.
Implicit Types (c : cache (K := K) (V := V)) (k : K).

Lemma cache_get_None k c : cache_get k c = None ↔ k ∉ keys c.
Proof.
  unfold keys. induction c as [|[k' v] c IH]; simpl.
  - split; [intros _; apply not_elem_of_nil | done].
  - rewrite not_elem_of_cons. case_decide as Hk.
    + split; [done | by intros []].
    + rewrite IH. by split; [|intros []].
Qed.

Lemma cache_get_is_Some k c : is_Some (cache_get k c) ↔ k ∈ keys c.
Proof.
  rewrite <- not_eq_None_Some, cache_get_None.
  split; [apply dec_stable | by intros ? ?].
Qed.

Lemma cache_del_length k c v :
  cache_get k c = Some v → length (cache_del k c) < length c.
Proof.
  intros Hget. unfold cache_del.
  assert (Hin : k ∈ keys c) by (apply cache_get_is_Some; eauto).
  unfold keys in Hin. apply list_elem_of_fmap in Hin as ([k' v'] & -> & Hin).
  apply (length_filter_lt _ _ _ Hin). simpl. by intros ?.
Qed.

Lemma removelast_take c : removelast c = take (length c - 1) c.
Proof. rewrite removelast_firstn_len. by rewrite Nat.sub_1_r. Qed.

(** A call keeps the cache within its capacity. *)
Lemma call_length (maxsize : nat) (f : K → V) k c :
  length c ≤ maxsize → length (call maxsize f k c).2 ≤ maxsize.
Proof.
  intros Hlen. unfold call.
  destruct (cache_get k c) as [v|] eqn:Hget; simpl.
  - pose proof (cache_del_length _ _ _ Hget). lia.
  - repeat case_decide; simpl; [done| |lia].
    rewrite removelast_take, length_take. lia.
Qed.

Lemma calls_length (maxsize : nat) (reqs : list ((K → V) * K)) :
  ∀ c, length c ≤ maxsize → length (calls maxsize reqs c) ≤ maxsize.
Proof.
  induction reqs as [|r reqs IH]; intros c Hlen; [done|].
  simpl. by apply IH, call_length.
Qed.

(** A miss enters the key at the front and keeps the most recent of the
    others, as many as fit. *)
Lemma call_miss_keys (maxsize : nat) (f : K → V) k c :
  0 < maxsize → length c ≤ maxsize → cache_get k c = None →
  keys (call maxsize f k c).2 = take maxsize (k :: keys c).
Proof.
  intros Hpos Hlen Hget. unfold call. rewrite Hget.
  destruct maxsize as [|m]; [lia|]. rewrite decide_False by done.
  unfold keys. case_decide; simpl; f_equal.
  - rewrite removelast_take, fmap_take.
    by replace (length c - 1) with m by lia.
  - rewrite take_ge; [done|]. rewrite length_fmap. lia.
Qed.

Lemma take_app_take {A} (a b : list A) :
  ∀ m n, m ≤ n → take m (a ++ take n b) = take m (a ++ b).
Proof.
  induction a as [|x a IH]; intros m n Hmn; simpl.
  - rewrite take_take. by replace (m `min` n) with m by lia.
  - destruct m as [|m]; [done|]. simpl. f_equal. apply IH. lia.
Qed.

(** After calls with keys that differ from one another and from those of
    the cache, the cache holds the most recent keys, the last one first. *)
Lemma calls_distinct_keys (maxsize : nat) (reqs : list ((K → V) * K)) :
  0 < maxsize →
  ∀ c, length c ≤ maxsize → NoDup (reqs.*2 ++ keys c) →
       keys (calls maxsize reqs c) = take maxsize (reverse (reqs.*2) ++ keys c).
Proof.
  intros Hpos. induction reqs as [|[f k] reqs IH]; intros c Hlen Hnd; simpl.
  - rewrite take_ge; [done|]. unfold keys. by rewrite length_fmap.
  - simpl in Hnd. apply NoDup_cons in Hnd as [Hk Hnd].
    apply not_elem_of_app in Hk as [Hk1 Hk2].
    assert (Hget : cache_get k c = None) by by apply cache_get_None.
    rewrite IH.
    + rewrite (call_miss_keys _ _ _ _ Hpos Hlen Hget).
      rewrite take_app_take by done.
      by rewrite reverse_cons, <- app_assoc.
    + by apply call_length.
    + rewrite (call_miss_keys _ _ _ _ Hpos Hlen Hget).
      apply NoDup_app. apply NoDup_app in Hnd as (Hn1 & Hn2 & Hn3).
      split_and!; [done| |].
      * intros x Hx Hx'. apply elem_of_take in Hx' as (i & Hx' & _).
        apply list_elem_of_lookup_2 in Hx'.
        apply elem_of_cons in Hx' as [->|Hx']; [done|]. by apply (Hn2 x).
      * eapply sublist_NoDup; [|apply sublist_take]. by apply NoDup_cons.
Qed.

End Cache.

End LruFacts.

Module RenderFacts.
Import Tree LruCache LruFacts Render RenderLoop.

Lemma maxsize_pos : 0 < maxsize.
Proof. unfold maxsize. lia. Qed.

Section Order.
Context {K V : Type} `{EqDecision K}.
Implicit Types (c : cache (K := K) (V := V)) (k : K).

Lemma filter_other_id k (l : list K) : k ∉ l → filter (λ x, x ≠ k) l = l.
Proof.
  induction l as [|x l IH]; intros Hk; [done|].
  apply not_elem_of_cons in Hk as [Hne Hk].
  rewrite filter_cons_True by (by intros ->). by rewrite IH.
Qed.

Lemma keys_cache_del k c : keys (cache_del k c) = filter (λ x, x ≠ k) (keys c).
Proof.
  unfold keys, cache_del. induction c as [|[k' v] c IH]; [done|].
  rewrite fmap_cons. cbn [fst]. destruct (decide (k' = k)) as [->|Hne].
  - rewrite (filter_cons_False (λ x, x ≠ k)) by (by intros ?).
    rewrite (filter_cons_False (λ p : K * V, p.1 ≠ k)) by (by intros ?). done.
  - rewrite (filter_cons_True (λ x, x ≠ k)) by done.
    rewrite (filter_cons_True (λ p : K * V, p.1 ≠ k)) by done.
    rewrite fmap_cons. cbn [fst]. f_equal. exact IH.
Qed.

(** The keys after a call, hit or miss: the key of the call comes first,
    the others keep their order, and what does not fit is dropped at the
    end. *)
Lemma call_keys (m : nat) (f : K → V) k c :
  0 < m → length c ≤ m →
  keys (call m f k c).2 = take m (k :: filter (λ x, x ≠ k) (keys c)).
Proof.
  intros Hm Hlen. destruct (cache_get k c) as [v|] eqn:Hget.
  - unfold call. rewrite Hget. cbn [snd].
    change (keys ((k, v) :: cache_del k c)) with (k :: keys (cache_del k c)).
    rewrite keys_cache_del. rewrite take_ge; [done|].
    pose proof (cache_del_length _ _ _ Hget) as Hlt.
    rewrite <- keys_cache_del. cbn [length]. unfold keys. rewrite length_fmap. lia.
  - rewrite (call_miss_keys _ _ _ _ Hm Hlen Hget).
    rewrite filter_other_id; [done|]. by apply cache_get_None.
Qed.

Lemma take_filter_take k (l : list K) :
  NoDup l → ∀ n, take n (filter (λ x, x ≠ k) (take (S n) l))
                 = take n (filter (λ x, x ≠ k) l).
Proof.
  induction 1 as [|x l Hx Hnd IH]; intros n; [done|].
  change (take (S n) (x :: l)) with (x :: take n l).
  destruct (decide (x = k)) as [->|Hne].
  - rewrite !filter_cons_False by (by intros ?).
    rewrite !filter_other_id; [by rewrite take_take, Nat.min_id|done|].
    intros Hk. apply Hx. eapply elem_of_sublist; [done|apply sublist_take].
  - rewrite !filter_cons_True by done.
    destruct n as [|n]; [done|]. cbn [take]. f_equal. apply IH.
Qed.

Lemma remove_dups_snoc (ks : list K) k :
  remove_dups (ks ++ [k]) = filter (λ x, x ≠ k) (remove_dups ks) ++ [k].
Proof.
  induction ks as [|x ks IH]; [done|].
  cbn [app remove_dups]. rewrite IH.
  destruct (decide_rel elem_of x (ks ++ [k])) as [Hin1|Hin1];
    destruct (decide_rel elem_of x ks) as [Hin2|Hin2].
  - done.
  - apply elem_of_app in Hin1 as [?|Hin1]; [done|].
    apply list_elem_of_singleton in Hin1 as ->.
    by rewrite filter_cons_False by (by intros ?).
  - exfalso. apply Hin1, elem_of_app. by left.
  - rewrite filter_cons_True; [done|].
    intros ->. apply Hin1, elem_of_app. right. apply list_elem_of_here.
Qed.

Lemma recently_used_snoc (ks : list K) k :
  recently_used (ks ++ [k]) = k :: filter (λ x, x ≠ k) (recently_used ks).
Proof.
  unfold recently_used. rewrite remove_dups_snoc, reverse_snoc.
  by rewrite filter_reverse.
Qed.

Lemma remove_dups_id (ks : list K) : NoDup ks → remove_dups ks = ks.
Proof.
  induction 1 as [|x ks Hx Hnd IH]; [done|].
  cbn [remove_dups]. destruct (decide_rel elem_of x ks); [done|]. by rewrite IH.
Qed.

Lemma NoDup_recently_used (ks : list K) : NoDup (recently_used ks).
Proof. unfold recently_used. rewrite reverse_Permutation. apply NoDup_remove_dups. Qed.

Lemma calls_snoc (m : nat) (reqs : list ((K → V) * K)) r c :
  calls m (reqs ++ [r]) c = (call m r.1 r.2 (calls m reqs c)).2.
Proof. unfold calls. by rewrite foldl_app. Qed.

(** The cache holds the keys used last, in the order of their last use. *)
Lemma calls_recently_used (m : nat) (reqs : list ((K → V) * K)) :
  0 < m → keys (calls (V := V) m reqs []) = take m (recently_used (reqs.*2)).
Proof.
  intros Hm. induction reqs as [|[f k] reqs IH] using rev_ind.
  { by destruct m. }
  rewrite calls_snoc. cbn [fst snd].
  rewrite call_keys; [|done|apply calls_length; simpl; lia].
  rewrite IH, fmap_app. change ([(f, k)].*2) with [k]. rewrite recently_used_snoc.
  destruct m as [|m]; [lia|]. cbn [take]. f_equal.
  apply take_filter_take, NoDup_recently_used.
Qed.

End Order.

Lemma render_frame_call self fr c :
  render_frame self fr c
  = call maxsize (render_tree_label (f_tree fr) (f_cursor fr)) (key_of self fr) c.
Proof. reflexivity. Qed.

Lemma render_session_calls self frs c :
  render_session self frs c
  = calls maxsize
      ((λ fr, (render_tree_label (f_tree fr) (f_cursor fr), key_of self fr)) <$> frs) c.
Proof. unfold render_session, calls. by rewrite foldl_fmap. Qed.

Lemma key_of_same self fr1 fr2 :
  key_of self fr2 = key_of self fr1 ↔ same_inputs fr1 fr2.
Proof.
  unfold same_inputs, key_of. split.
  - by intros [= -> -> -> -> -> ->].
  - by intros (-> & -> & -> & -> & -> & ->).
Qed.

(** After a call of the wrapper the entry of its key is the first. *)
Lemma call_front {V} (f : key → V) (k : key) (c : cache) :
  ∃ c', (call maxsize f k c).2 = (k, (call maxsize f k c).1) :: c'.
Proof.
  unfold call. destruct (cache_get k c) as [v|]; [by eexists|].
  rewrite decide_False by (pose proof maxsize_pos; lia).
  case_decide; by eexists.
Qed.

Lemma call_keys_sub {V} (f : key → V) (k k' : key) (c : cache) :
  k' ∈ keys (call maxsize f k c).2 → k' = k ∨ k' ∈ keys c.
Proof.
  unfold call. destruct (cache_get k c) as [v|]; cbn [snd].
  - change (keys ((k, v) :: cache_del k c)) with (k :: keys (cache_del k c)).
    rewrite keys_cache_del, elem_of_cons, list_elem_of_filter. tauto.
  - rewrite decide_False by (pose proof maxsize_pos; lia).
    case_decide; cbn [snd].
    + change (keys ((k, f k) :: removelast c)) with (k :: keys (removelast c)).
      rewrite elem_of_cons. intros [?|Hin]; [by left|right].
      unfold keys in *. rewrite removelast_take, fmap_take in Hin.
      eapply elem_of_sublist; [done|apply sublist_take].
    + change (keys ((k, f k) :: c)) with (k :: keys c).
      rewrite elem_of_cons. tauto.
Qed.

(** C4. The cache of [render_tree_label], as [render_node] fills it on
    one widget.  It is keyed by the six values that [render_node] passes:
    a call that passes the same six values as the call before it returns
    the label rendered by that call, whatever else has changed in the
    tree; a call that differs in one of them, with a key that is not in
    the cache, renders its label anew.  The cache never holds more than
    1024 * 32 entries.  Its keys are the 1024 * 32 used last, in the order
    of their last use: a call, hit or miss, puts its key first, and what
    no longer fits is dropped at the end.  So after calls with more than
    1024 * 32 different keys the cache holds exactly 1024 * 32 entries,
    the keys used last are present and the others are not. *)
Theorem render_tree_label_cache (self : nat) :
  (∀ (fr1 fr2 : frame) (c : cache),
     let r1 := render_frame self fr1 c in
     let r2 := render_frame self fr2 r1.2 in
     (same_inputs fr1 fr2 → r2.1 = r1.1)
     ∧ (¬ same_inputs fr1 fr2 → key_of self fr2 ∉ keys c →
          r2.1 = render_tree_label (f_tree fr2) (f_cursor fr2) (key_of self fr2)))
  ∧ (∀ frs, length (render_session self frs []) ≤ 1024 * 32)
  ∧ (∀ frs fr,
       keys (render_session self (frs ++ [fr]) [])
       = take (1024 * 32)
           (key_of self fr
              :: filter (λ k, k ≠ key_of self fr) (keys (render_session self frs []))))
  ∧ (∀ frs,
       keys (render_session self frs [])
       = take (1024 * 32) (recently_used (key_of self <$> frs)))
  ∧ (∀ frs,
       1024 * 32 < length (remove_dups (key_of self <$> frs)) →
       length (render_session self frs []) = 1024 * 32
       ∧ (∀ k, k ∈ take (1024 * 32) (recently_used (key_of self <$> frs)) →
               is_Some (cache_get k (render_session self frs [])))
       ∧ (∀ k, k ∈ drop (1024 * 32) (recently_used (key_of self <$> frs)) →
               cache_get k (render_session self frs []) = None)).
Proof.
  assert (Hkeys : ∀ frs, keys (render_session self frs [])
                         = take maxsize (recently_used (key_of self <$> frs))).
  { intros frs. rewrite render_session_calls.
    rewrite (calls_recently_used maxsize _ maxsize_pos).
    by rewrite <- list_fmap_compose. }
  assert (Hlen : ∀ frs, length (render_session self frs []) ≤ maxsize).
  { intros frs. rewrite render_session_calls. apply calls_length. simpl. lia. }
  split_and!.
  - intros fr1 fr2 c. cbn zeta. rewrite !render_frame_call. split.
    + intros Hsame. apply (proj2 (key_of_same self fr1 fr2)) in Hsame. rewrite Hsame.
      destruct (call_front (render_tree_label (f_tree fr1) (f_cursor fr1))
                  (key_of self fr1) c) as [c' ->].
      unfold call at 1. cbn [cache_get]. by rewrite decide_True.
    + intros Hdiff Hnew.
      assert (Hne : key_of self fr2 ≠ key_of self fr1)
        by (intros Heq; apply Hdiff; exact (proj1 (key_of_same self fr1 fr2) Heq)).
      assert (Hget : cache_get (key_of self fr2)
                (call maxsize (render_tree_label (f_tree fr1) (f_cursor fr1))
                   (key_of self fr1) c).2 = None).
      { apply cache_get_None. intros Hin.
        by apply call_keys_sub in Hin as [?|?]. }
      unfold call at 1. rewrite Hget.
      rewrite decide_False by (pose proof maxsize_pos; lia).
      by case_decide.
  - exact Hlen.
  - intros frs fr. unfold render_session at 1. rewrite foldl_app. cbn [foldl].
    fold (render_session self frs []). rewrite render_frame_call.
    apply call_keys; [apply maxsize_pos|apply Hlen].
  - exact Hkeys.
  - intros frs Hmany.
    assert (Hru : maxsize < length (recently_used (key_of self <$> frs))).
    { unfold recently_used. by rewrite length_reverse. }
    split_and!.
    + transitivity (length (keys (render_session self frs []))).
      { unfold keys. by rewrite length_fmap. }
      rewrite Hkeys, length_take. fold maxsize. lia.
    + intros k Hk. apply cache_get_is_Some. by rewrite Hkeys.
    + intros k Hk. apply cache_get_None. rewrite Hkeys. intros Hin.
      pose proof (NoDup_recently_used (key_of self <$> frs)) as Hnd.
      rewrite <- (take_drop maxsize (recently_used (key_of self <$> frs))) in Hnd.
      apply NoDup_app in Hnd as (_ & Hdisj & _). by apply (Hdisj k).
Qed.

Lemma render_tree_label_cache_witness :
  let frs := frame_at <$> seq 0 (S (1024 * 32)) in
  1024 * 32 < length (remove_dups (key_of 0 <$> frs))
  ∧ length (render_session 0 frs []) = 1024 * 32
  ∧ (∀ k, k ∈ take (1024 * 32) (recently_used (key_of 0 <$> frs)) →
          is_Some (cache_get k (render_session 0 frs [])))
  ∧ (∀ k, k ∈ drop (1024 * 32) (recently_used (key_of 0 <$> frs)) →
          cache_get k (render_session 0 frs []) = None).
Proof.
  intros frs.
  assert (Hnd : NoDup (key_of 0 <$> frs)).
  { unfold frs. rewrite <- list_fmap_compose.
    apply NoDup_fmap_2_strong; [|apply NoDup_seq].
    intros i j _ _ Heq. by injection Heq. }
  assert (Hmany : 1024 * 32 < length (remove_dups (key_of 0 <$> frs))).
  { assert (Hrd : length (remove_dups (key_of 0 <$> frs)) = length (key_of 0 <$> frs))
      by exact (f_equal length (remove_dups_id _ Hnd)).
    assert (Hl : length (key_of 0 <$> frs) = S (1024 * 32))
      by (unfold frs; rewrite !length_fmap; apply length_seq).
    rewrite Hrd, Hl. apply Nat.lt_succ_diag_r. }
  split; [exact Hmany|].
  exact (proj2 (proj2 (proj2 (proj2 (render_tree_label_cache 0)))) frs Hmany).
Defined.

End RenderFacts.

(** ** Invariants of the node table *)

Module TreeInvFacts.
Import Tree TreeInv Samples TreeFacts.

Lemma keeps_ret P {A} (a : A) : keeps P (ret a).
Proof. by intros t. Qed.

Lemma keeps_raise P {A} e : keeps P (raise (A := A) e).
Proof. by intros t. Qed.

Lemma keeps_gets P {A} (f : JenkinsTree → A) : keeps P (gets f).
Proof. by intros t. Qed.

Lemma keeps_getitem P {A} key (o : option A) : keeps P (getitem key o).
Proof. destruct o; [apply keeps_ret | apply keeps_raise]. Qed.

Lemma keeps_node P nid : keeps P (node nid).
Proof. intros t. unfold node. by destruct (nodes t !! nid). Qed.

Lemma keeps_bind P {A B} (op : M A) (k : A → M B) :
  keeps P op → (∀ a, keeps P (k a)) → keeps P (bind op k).
Proof.
  intros Hop Hk t HP. unfold bind. specialize (Hop t HP).
  destruct (op t) as [[e|a] t1]; simpl in *; [done|]. by apply Hk.
Qed.

Create HintDb keeps.

#[local] Hint Resolve keeps_ret keeps_raise keeps_gets keeps_getitem keeps_node
  : keeps.

Ltac keeps :=
  repeat first
    [ solve [eauto with keeps]
    | apply keeps_bind; [|intros ?]
    | match goal with |- keeps _ (if ?b then _ else _) => destruct b end ].

(** *** The widget only grows *)

Lemma grows_refl t : grows t t.
Proof.
  split; [done|]. intros k _. destruct (nodes t !! k) as [n|]; [|done].
  exists n. by split_and!.
Qed.

Lemma grows_trans t1 t2 t3 : grows t1 t2 → grows t2 t3 → grows t1 t3.
Proof.
  intros [Hid1 H1] [Hid2 H2]. split; [lia|]. intros k Hk.
  specialize (H1 k Hk). specialize (H2 k ltac:(lia)).
  destruct (nodes t1 !! k) as [n1|].
  - destruct H1 as (n2 & Hn2 & ? & ? & ? & ? & ? & ?). rewrite Hn2 in H2.
    destruct H2 as (n3 & Hn3 & ? & ? & ? & ? & ? & ?).
    exists n3. split_and!; try congruence; [by etrans|auto].
  - by rewrite H1 in H2.
Qed.

Lemma grows_step {A} (op : M A) :
  (∀ t, grows t (op t).2) → ∀ t0, keeps (grows t0) op.
Proof. intros H t0 t Ht. eapply grows_trans; [done|apply H]. Qed.

Lemma grows_get_jobs t : grows t (get_jobs t).2.
Proof.
  unfold get_jobs. destruct (client t) as [|[js|] rest]; simpl;
    (split; [done|]); intros k _; simpl;
    (destruct (nodes t !! k) as [n|]; [exists n; by split_and!|done]).
Qed.

Lemma grows_add nid lbl d t : grows t (add nid lbl d t).2.
Proof.
  unfold add. destruct (nodes t !! nid) as [p|] eqn:Hp; simpl; [|apply grows_refl].
  split; [simpl; lia|]. intros k Hk. simpl.
  rewrite lookup_insert_ne by lia.
  destruct (decide (k = nid)) as [->|Hne].
  - rewrite Hp, lookup_insert_eq. eexists. split_and!; try done.
    simpl. by apply prefix_app_r.
  - rewrite lookup_insert_ne by done.
    destruct (nodes t !! k) as [n|]; [exists n; by split_and!|done].
Qed.

Lemma grows_alter nid (f : TreeNode → TreeNode) t :
  (∀ n, node_id (f n) = node_id n ∧ parent (f n) = parent n
        ∧ label (f n) = label n ∧ data (f n) = data n
        ∧ children (f n) = children n ∧ (loaded n = true → loaded (f n) = true)) →
  grows t (set_nodes (alter f nid (nodes t)) (id t) t).
Proof.
  intros Hf. split; [done|]. intros k _. simpl.
  destruct (decide (k = nid)) as [->|Hne].
  - rewrite lookup_alter_eq. destruct (nodes t !! nid) as [n|]; [|done]. simpl.
    destruct (Hf n) as (? & ? & ? & ? & Hc & ?).
    exists (f n). split_and!; try done. by rewrite Hc.
  - rewrite lookup_alter_ne by done.
    destruct (nodes t !! k) as [n|]; [exists n; by split_and!|done].
Qed.

Lemma grows_set_loaded nid t : grows t (set_loaded nid t).2.
Proof. by apply grows_alter. Qed.

Lemma grows_expand nid t : grows t (expand nid t).2.
Proof. by apply grows_alter. Qed.

Lemma grows_toggle nid t : grows t (toggle nid t).2.
Proof.
  unfold toggle, modify. cbn [snd].
  split; [done|]. intros k _. simpl.
  destruct (decide (k = nid)) as [->|Hne].
  - rewrite lookup_alter_eq. destruct (nodes t !! nid) as [n|]; [|done]. simpl.
    eexists. by split_and!.
  - rewrite lookup_alter_ne by done.
    destruct (nodes t !! k) as [n|]; [exists n; by split_and!|done].
Qed.

Lemma keeps_grows_get_jobs t0 : keeps (grows t0) get_jobs.
Proof. apply grows_step, grows_get_jobs. Qed.

Lemma keeps_grows_add t0 nid lbl d : keeps (grows t0) (add nid lbl d).
Proof. apply grows_step, grows_add. Qed.

Lemma keeps_grows_set_loaded t0 nid : keeps (grows t0) (set_loaded nid).
Proof. apply grows_step, grows_set_loaded. Qed.

Lemma keeps_grows_expand t0 nid : keeps (grows t0) (expand nid).
Proof. apply grows_step, grows_expand. Qed.

Lemma keeps_grows_toggle t0 nid : keeps (grows t0) (toggle nid).
Proof. apply grows_step, grows_toggle. Qed.

#[local] Hint Resolve keeps_grows_get_jobs keeps_grows_add keeps_grows_set_loaded
  keeps_grows_expand keeps_grows_toggle : keeps.

(** *** The links stay consistent *)

Lemma linked_alter nid (f : TreeNode → TreeNode) t :
  (∀ n, node_id (f n) = node_id n ∧ parent (f n) = parent n
        ∧ children (f n) = children n) →
  linked t → linked (set_nodes (alter f nid (nodes t)) (id t) t).
Proof.
  intros Hf Hl.
  assert (Hsame : ∀ c cn, nodes t !! c = Some cn →
            ∃ cn', alter f nid (nodes t) !! c = Some cn'
                   ∧ parent cn' = parent cn ∧ children cn' = children cn).
  { intros c cn Hc. destruct (decide (c = nid)) as [->|Hne].
    - rewrite lookup_alter_eq, Hc. simpl. destruct (Hf cn) as (? & ? & ?). eauto.
    - rewrite lookup_alter_ne by done. eauto. }
  intros k n Hn. simpl in Hn.
  assert (∃ n0, nodes t !! k = Some n0 ∧ node_id n = node_id n0
                ∧ parent n = parent n0 ∧ children n = children n0)
    as (n0 & Hn0 & Hid & Hpa & Hch).
  { destruct (decide (k = nid)) as [->|Hne].
    - rewrite lookup_alter_eq in Hn. destruct (nodes t !! nid) as [n0|]; [|done].
      simpl in Hn. injection Hn as <-. destruct (Hf n0) as (? & ? & ?). eauto.
    - rewrite lookup_alter_ne in Hn by done. eauto. }
  destruct (Hl k n0 Hn0) as (Hle & Hk & Hnd & Hcs & Hp).
  rewrite Hid, Hpa, Hch. simpl. split_and!; try done.
  - intros c Hc. destruct (Hcs c Hc) as (cn & Hcn & Hpc).
    destruct (Hsame c cn Hcn) as (cn' & ? & ? & ?). exists cn'. split; congruence.
  - intros pk Hpk. destruct (Hp pk Hpk) as (pn & Hpn & Hin).
    destruct (Hsame pk pn Hpn) as (pn' & ? & ? & ?). exists pn'. split; congruence.
Qed.

Lemma linked_add nid lbl d t : linked t → linked (add nid lbl d t).2.
Proof.
  intros Hl. unfold add. destruct (nodes t !! nid) as [p|] eqn:Hp; [|done].
  destruct (Hl nid p Hp) as (Hle & Hid & Hnd & Hcs & Hpar).
  assert (Hbelow : ∀ c, c ∈ children p → c ≤ id t).
  { intros c Hc. destruct (Hcs c Hc) as (cn & Hcn & _). by apply (Hl c cn). }
  cbn [snd]. intros k n Hn. cbn [nodes id set_nodes] in *.
  assert (Hlook : ∀ j nj, nodes t !! j = Some nj →
            ∃ nj', <[id t + 1 := {| node_id := id t + 1; parent := Some nid;
                                    label := lbl; data := d; loaded := false;
                                    expanded := false; children := [] |}]>
                     (<[nid := with_children (children p ++ [id t + 1]) p]> (nodes t))
                     !! j = Some nj'
                   ∧ parent nj' = parent nj
                   ∧ (∀ c, c ∈ children nj → c ∈ children nj')).
  { intros j nj Hj. assert (j ≤ id t) by by apply (Hl j nj).
    rewrite lookup_insert_ne by lia.
    destruct (decide (j = nid)) as [->|Hne].
    - rewrite lookup_insert_eq. simplify_eq. eexists. split_and!; try done.
      intros c Hc. simpl. apply elem_of_app. by left.
    - rewrite lookup_insert_ne by done. eauto. }
  destruct (decide (k = id t + 1)) as [->|Hnew].
  - rewrite lookup_insert_eq in Hn. injection Hn as <-. simpl.
    split_and!; try done.
    + apply NoDup_nil_2.
    + intros c Hc. by apply elem_of_nil in Hc.
    + intros pk [= <-]. rewrite lookup_insert_ne by lia.
      rewrite lookup_insert_eq. eexists. split; [done|]. simpl.
      apply elem_of_app. right. by apply list_elem_of_singleton.
  - rewrite lookup_insert_ne in Hn by done.
    destruct (decide (k = nid)) as [->|Hne].
    + rewrite lookup_insert_eq in Hn. injection Hn as <-. simpl.
      split_and!; try done; [lia| | |].
      * apply NoDup_app. split_and!; [done| |apply NoDup_singleton].
        intros c Hc Hc'. apply list_elem_of_singleton in Hc'.
        specialize (Hbelow c Hc). lia.
      * intros c Hc. apply elem_of_app in Hc as [Hc|Hc].
        -- destruct (Hcs c Hc) as (cn & Hcn & Hpc).
           destruct (Hlook c cn Hcn) as (cn' & ? & ? & _). exists cn'. split; congruence.
        -- apply list_elem_of_singleton in Hc as ->. rewrite lookup_insert_eq. eauto.
      * intros pk Hpk. destruct (Hpar pk Hpk) as (pn & Hpn & Hin).
        destruct (Hlook pk pn Hpn) as (pn' & ? & _ & Hsub). exists pn'. auto.
    + rewrite lookup_insert_ne in Hn by done.
      destruct (Hl k n Hn) as (Hle' & Hid' & Hnd' & Hcs' & Hpar').
      split_and!; try done; [lia| |].
      * intros c Hc. destruct (Hcs' c Hc) as (cn & Hcn & Hpc).
        destruct (Hlook c cn Hcn) as (cn' & ? & ? & _). exists cn'. split; congruence.
      * intros pk Hpk. destruct (Hpar' pk Hpk) as (pn & Hpn & Hin).
        destruct (Hlook pk pn Hpn) as (pn' & ? & _ & Hsub). exists pn'. auto.
Qed.

Lemma linked_get_jobs t : linked t → linked (get_jobs t).2.
Proof. unfold get_jobs. by destruct (client t) as [|[js|] rest]. Qed.

Lemma keeps_linked_get_jobs : keeps linked get_jobs.
Proof. intros t. apply linked_get_jobs. Qed.

Lemma keeps_linked_add nid lbl d : keeps linked (add nid lbl d).
Proof. intros t. apply linked_add. Qed.

Lemma keeps_linked_set_loaded nid : keeps linked (set_loaded nid).
Proof. intros t. by apply linked_alter. Qed.

Lemma keeps_linked_expand nid : keeps linked (expand nid).
Proof. intros t. by apply linked_alter. Qed.

Lemma keeps_linked_toggle nid : keeps linked (toggle nid).
Proof.
  intros t.
  by apply (linked_alter nid (λ n, with_expanded (negb (expanded n)) n)).
Qed.

#[local] Hint Resolve keeps_linked_get_jobs keeps_linked_add keeps_linked_set_loaded
  keeps_linked_expand keeps_linked_toggle : keeps.

(** *** The type of the root, and the client *)

Lemma root_named_add nid lbl d t :
  type d ≠ "root" → root_named t → root_named (add nid lbl d t).2.
Proof.
  intros Hd Hr. unfold add. destruct (nodes t !! nid) as [p|] eqn:Hp; [|done].
  cbn [snd]. intros k n Hn. simpl in Hn.
  destruct (decide (k = id t + 1)) as [->|Hnew].
  - rewrite lookup_insert_eq in Hn. by injection Hn as <-.
  - rewrite lookup_insert_ne in Hn by done.
    destruct (decide (k = nid)) as [->|Hne].
    + rewrite lookup_insert_eq in Hn. injection Hn as <-. by apply (Hr nid p).
    + rewrite lookup_insert_ne in Hn by done. by apply (Hr k n).
Qed.

Lemma root_named_alter nid (f : TreeNode → TreeNode) t :
  (∀ n, data (f n) = data n) →
  root_named t → root_named (set_nodes (alter f nid (nodes t)) (id t) t).
Proof.
  intros Hf Hr k n Hn. simpl in Hn.
  destruct (decide (k = nid)) as [->|Hne].
  - rewrite lookup_alter_eq in Hn. destruct (nodes t !! nid) as [n0|] eqn:Hn0; [|done].
    simpl in Hn. injection Hn as <-. rewrite Hf. by apply (Hr nid n0).
  - rewrite lookup_alter_ne in Hn by done. by apply (Hr k n).
Qed.

Lemma keeps_root_named_get_jobs : keeps root_named get_jobs.
Proof. intros t. unfold get_jobs. by destruct (client t) as [|[js|] rest]. Qed.

Lemma keeps_root_named_add nid lbl d :
  type d ≠ "root" → keeps root_named (add nid lbl d).
Proof. intros Hd t. by apply root_named_add. Qed.

Lemma keeps_root_named_set_loaded nid : keeps root_named (set_loaded nid).
Proof. intros t. by apply root_named_alter. Qed.

Lemma keeps_root_named_expand nid : keeps root_named (expand nid).
Proof. intros t. by apply root_named_alter. Qed.

Lemma keeps_root_named_toggle nid : keeps root_named (toggle nid).
Proof.
  intros t. by apply (root_named_alter nid (λ n, with_expanded (negb (expanded n)) n)).
Qed.

Lemma keeps_client_add c nid lbl d : keeps (λ t, client t = c) (add nid lbl d).
Proof. intros t. unfold add. by destruct (nodes t !! nid). Qed.

Lemma keeps_client_set_loaded c nid : keeps (λ t, client t = c) (set_loaded nid).
Proof. by intros t. Qed.

Lemma keeps_client_expand c nid : keeps (λ t, client t = c) (expand nid).
Proof. by intros t. Qed.

Lemma keeps_client_toggle c nid : keeps (λ t, client t = c) (toggle nid).
Proof. by intros t. Qed.

#[local] Hint Resolve keeps_root_named_get_jobs keeps_root_named_set_loaded
  keeps_root_named_expand keeps_root_named_toggle keeps_client_add
  keeps_client_set_loaded keeps_client_expand keeps_client_toggle : keeps.

Section Composite.
Variable unquote : string → string.

Lemma keeps_load_entry P nid e :
  (∀ lbl d, type d ≠ "root" → keeps P (add nid lbl d)) →
  keeps P (load_entry unquote nid e).
Proof.
  intros Hadd. unfold load_entry. keeps. apply Hadd, type_map_not_root.
Qed.

Lemma keeps_load_entries P nid js :
  (∀ lbl d, type d ≠ "root" → keeps P (add nid lbl d)) →
  keeps P (load_entries unquote nid js).
Proof.
  intros Hadd. induction js as [|e js IH]; simpl; [apply keeps_ret|].
  apply keeps_bind; [by apply keeps_load_entry | done].
Qed.

Lemma keeps_load_jobs P nid :
  keeps P get_jobs →
  (∀ lbl d, type d ≠ "root" → keeps P (add nid lbl d)) →
  keeps P (set_loaded nid) → keeps P (expand nid) →
  keeps P (load_jobs unquote nid).
Proof.
  intros Hget Hadd Hl He. unfold load_jobs.
  pose proof (keeps_load_entries P nid) as Hes. keeps.
Qed.

Lemma keeps_handle_tree_click P nid :
  keeps P get_jobs →
  (∀ lbl d, type d ≠ "root" → keeps P (add nid lbl d)) →
  keeps P (set_loaded nid) → keeps P (expand nid) → keeps P (toggle nid) →
  keeps P (handle_tree_click unquote nid).
Proof.
  intros Hget Hadd Hl He Ht. unfold handle_tree_click.
  pose proof (keeps_load_jobs P nid Hget Hadd Hl He). keeps.
Qed.

Lemma keeps_run_clicks P clicks :
  (∀ nid, keeps P (handle_tree_click unquote nid)) →
  ∀ t, P t → P (run_clicks unquote clicks t).
Proof.
  intros Hk. induction clicks as [|nid clicks IH]; intros t HP; [done|].
  simpl. by apply IH, Hk.
Qed.

Lemma linked_handle_tree_click nid : keeps linked (handle_tree_click unquote nid).
Proof. apply keeps_handle_tree_click; eauto with keeps. Qed.

Lemma root_named_handle_tree_click nid :
  keeps root_named (handle_tree_click unquote nid).
Proof.
  apply keeps_handle_tree_click; eauto with keeps.
  intros. by apply keeps_root_named_add.
Qed.

Lemma grows_handle_tree_click t0 nid :
  keeps (grows t0) (handle_tree_click unquote nid).
Proof. apply keeps_handle_tree_click; eauto with keeps. Qed.

Lemma linked_init c chicken : linked (init c chicken).
Proof.
  intros k n Hn. simpl in Hn. apply lookup_singleton_Some in Hn as [<- <-].
  simpl. split_and!; try done.
  - apply NoDup_nil_2.
  - intros c' Hc. by apply elem_of_nil in Hc.
Qed.

Lemma root_named_init c chicken : root_named (init c chicken).
Proof.
  intros k n Hn _. simpl in Hn. by apply lookup_singleton_Some in Hn as [<- <-].
Qed.

Lemma linked_on_mount : keeps linked (on_mount unquote).
Proof. apply keeps_load_jobs; eauto with keeps. Qed.

Lemma root_named_on_mount : keeps root_named (on_mount unquote).
Proof.
  apply keeps_load_jobs; eauto with keeps. intros. by apply keeps_root_named_add.
Qed.

Lemma bind_congr {A B} (m m' : M A) (k : A → M B) t :
  m t = m' t → bind m k t = bind m' k t.
Proof. intros H. unfold bind. by rewrite H. Qed.

Lemma load_jobs_seed nid t n :
  nodes t !! nid = Some n → type (data n) ≠ "root" →
  load_jobs unquote nid t =
    (load_entries unquote nid (jobs (data n)) ;; set_loaded nid ;; expand nid) t.
Proof.
  intros Hn Hty. unfold load_jobs.
  rewrite (bind_inr _ _ _ _ _ (node_Some _ _ _ Hn)).
  by rewrite bool_decide_eq_false_2.
Qed.

Lemma client_handle_tree_click nid t :
  root_named t → client (handle_tree_click unquote nid t).2 = client t.
Proof.
  intros Hr. destruct (nodes t !! nid) as [n|] eqn:Hn.
  - destruct (decide (type (data n) = "job")) as [Hty|Hty].
    { by rewrite (handle_tree_click_job _ _ _ _ Hn Hty). }
    destruct (decide (name (data n) = "root")) as [Hnm|Hnm].
    { by rewrite (handle_tree_click_root _ _ _ _ Hn Hty Hnm). }
    assert (Hnr : type (data n) ≠ "root") by (intros ?; by apply Hnm, (Hr nid n)).
    destruct (loaded n) eqn:Hl.
    + by rewrite (handle_tree_click_loaded _ _ _ _ Hn Hty Hnm Hl).
    + rewrite (handle_tree_click_unloaded _ _ _ _ Hn Hty Hnm Hl).
      rewrite (bind_congr _ _ _ _ (load_jobs_seed _ _ _ Hn Hnr)).
      pose proof (keeps_load_entries (λ t', client t' = client t) nid (jobs (data n))) as Hes.
      assert (Hk : keeps (λ t', client t' = client t)
                ((load_entries unquote nid (jobs (data n)) ;; set_loaded nid ;; expand nid) ;;
                 expand nid ;; ret ([] : list Message))).
      { keeps. }
      exact (Hk t eq_refl).
  - unfold handle_tree_click, bind, node. by rewrite Hn.
Qed.

(** X1. The table of nodes of a mounted tree is consistent, and stays so
    through any clicks, also those whose handler raises: every node is
    stored under its id, its children are distinct nodes of the table
    that name it as parent, and its parent lists it as a child. *)
Theorem tree_links_consistent (c : Jenkins) (chicken : bool) (clicks : list NodeID) :
  linked (run_clicks unquote clicks (on_mount unquote (init c chicken)).2).
Proof.
  apply keeps_run_clicks; [apply linked_handle_tree_click|].
  apply linked_on_mount, linked_init.
Qed.

(** X2. Clicks never remove or rewrite a node: whatever is clicked, a
    node keeps its id, parent, label and data, its children stay at the
    front of its list of children, and it stays loaded if it was. *)
Theorem clicks_never_change_a_node (clicks : list NodeID) t k n :
  nodes t !! k = Some n → k ≤ id t →
  ∃ n', nodes (run_clicks unquote clicks t) !! k = Some n'
    ∧ node_id n' = node_id n ∧ parent n' = parent n
    ∧ label n' = label n ∧ data n' = data n
    ∧ children n `prefix_of` children n'
    ∧ (loaded n = true → loaded n' = true).
Proof.
  intros Hn Hk.
  destruct (keeps_run_clicks (grows t) clicks (grows_handle_tree_click t) t (grows_refl t))
    as [_ H].
  specialize (H k Hk). by rewrite Hn in H.
Qed.

(** X3. After the tree is mounted no click calls the server: the
    hierarchy is fetched by [on_mount] only, and when that call fails no
    click fetches it again. *)
Theorem clicks_never_call_the_server (c : Jenkins) (chicken : bool)
    (clicks : list NodeID) :
  let t := (on_mount unquote (init c chicken)).2 in
  client (run_clicks unquote clicks t) = client t
  ∧ (∀ rest, c = None :: rest →
       nodes (run_clicks unquote clicks t) !! 0 = Some root_node).
Proof.
  cbn zeta. set (t := (on_mount unquote (init c chicken)).2).
  assert (Hr : root_named t) by apply root_named_on_mount, root_named_init.
  assert (Hinv : ∀ t', root_named t' ∧ client t' = client t →
                 root_named (run_clicks unquote clicks t')
                 ∧ client (run_clicks unquote clicks t') = client t).
  { apply (keeps_run_clicks (λ t', root_named t' ∧ client t' = client t)).
    intros nid t' [Hr' Hc']. split; [by apply root_named_handle_tree_click|].
    by rewrite client_handle_tree_click. }
  split; [by apply Hinv|].
  intros rest ->.
  assert (Ht : t = init rest chicken) by reflexivity.
  clearbody t. subst t. clear Hr Hinv.
  induction clicks as [|nid clicks IH] using rev_ind; [done|].
  unfold run_clicks in *. rewrite foldl_app. simpl.
  set (t1 := foldl _ _ clicks) in *.
  destruct (decide (nid = 0)) as [->|Hne].
  - by rewrite (handle_tree_click_root _ _ _ _ IH).
  - destruct (touches_handle_tree_click unquote nid t1) as [_ Hfr].
    rewrite Hfr; [done|lia|done].
Qed.

(** *** Loading, descriptor by descriptor *)

Lemma bind_assoc {A B C} (m : M A) (k : A → M B) (k' : B → M C) t :
  bind (bind m k) k' t = bind m (λ a, bind (k a) k') t.
Proof. unfold bind. by destruct (m t) as [[e|a] t1]. Qed.

Lemma bind_ext {A B} (m : M A) (k k' : A → M B) t :
  (∀ a t', k a t' = k' a t') → bind m k t = bind m k' t.
Proof. intros H. unfold bind. destruct (m t) as [[e|a] t1]; [done|apply H]. Qed.

Lemma load_entries_app nid js1 js2 t :
  load_entries unquote nid (js1 ++ js2) t =
    (load_entries unquote nid js1 ;; load_entries unquote nid js2) t.
Proof.
  revert t. induction js1 as [|e js1 IH]; intros t; [reflexivity|].
  simpl. rewrite bind_assoc. apply bind_ext. intros _ t'. apply IH.
Qed.

Lemma load_entry_complete nid e t p :
  nodes t !! nid = Some p → missing_key (chicken_mode_enabled t) e = None →
  load_entry unquote nid e t =
    (inr tt,
     set_nodes
       (<[id t + 1 := child_of unquote (chicken_mode_enabled t) nid (id t + 1) e]>
          (<[nid := with_children (children p ++ [id t + 1]) p]> (nodes t)))
       (id t + 1) t).
Proof.
  intros Hp Hm. unfold missing_key in Hm.
  destruct e as [cls nm u col js]; simpl in *.
  destruct cls as [cls|]; [|done].
  unfold load_entry, bind, getitem, gets, ret, add, child_of; simpl.
  destruct (chicken_mode_enabled t); simpl in *.
  - destruct u as [u|]; [|done]. by rewrite Hp.
  - destruct nm as [nm|]; [|done].
    destruct u as [u|]; [|done]. simpl. by rewrite Hp.
Qed.

Lemma load_entry_missing nid e t key :
  missing_key (chicken_mode_enabled t) e = Some key →
  load_entry unquote nid e t = (inl (KeyError key), t).
Proof.
  intros Hm. unfold missing_key in Hm.
  destruct e as [[cls|] nm u col js]; simpl in *; [|by injection Hm as <-].
  unfold load_entry, bind, getitem, gets, ret; simpl.
  destruct (chicken_mode_enabled t); simpl in *.
  - destruct u; [done|]. by injection Hm as <-.
  - destruct nm as [nm|]; simpl in *.
    + destruct u; [done|]. by injection Hm as <-.
    + by injection Hm as <-.
Qed.

Lemma load_entries_complete nid js :
  ∀ t p, nodes t !! nid = Some p → nid ≤ id t →
  Forall (λ e, missing_key (chicken_mode_enabled t) e = None) js →
  ∃ t', load_entries unquote nid js t = (inr tt, t')
    ∧ id t' = id t + length js
    ∧ client t' = client t
    ∧ chicken_mode_enabled t' = chicken_mode_enabled t
    ∧ nodes t' !! nid =
        Some (with_children (children p ++ seq (id t + 1) (length js)) p)
    ∧ (∀ i e, js !! i = Some e →
         nodes t' !! (id t + 1 + i) =
           Some (child_of unquote (chicken_mode_enabled t) nid (id t + 1 + i) e))
    ∧ (∀ k, k ≤ id t → k ≠ nid → nodes t' !! k = nodes t !! k).
Proof.
  induction js as [|e js IH]; intros t p Hp Hle Hd.
  - exists t. simpl. rewrite Nat.add_0_r, app_nil_r, with_children_id.
    split_and!; try done.
  - apply Forall_cons in Hd as [He Hd]. simpl. unfold bind at 1.
    rewrite (load_entry_complete nid e t p Hp He).
    set (p1 := with_children (children p ++ [id t + 1]) p).
    set (t1 := set_nodes _ _ t).
    assert (Hp1 : nodes t1 !! nid = Some p1).
    { simpl. rewrite lookup_insert_ne by lia. by rewrite lookup_insert_eq. }
    destruct (IH t1 p1 Hp1) as (t' & Hrun & Hid & Hcl & Hch & Hn & Hnew & Hfr);
      [simpl; lia | done |].
    exists t'. simpl in *. split_and!; try done.
    + lia.
    + rewrite Hn. f_equal. unfold p1. simpl. rewrite <- app_assoc. simpl.
      by replace (id t + 1 + 1) with (S (id t + 1)) by lia.
    + intros [|i] e' Hi; simpl in Hi.
      * injection Hi as <-. rewrite Nat.add_0_r.
        rewrite Hfr by lia. by rewrite lookup_insert_eq.
      * replace (id t + 1 + S i) with (id t + 1 + 1 + i) by lia.
        by apply Hnew.
    + intros k Hk Hne. rewrite Hfr by lia.
      rewrite lookup_insert_ne by lia. by rewrite lookup_insert_ne.
Qed.

(** [load_jobs] on a node that keeps its seed, when the seed has a
    descriptor with a key missing: the children made for the descriptors
    before it stay, and the node is not marked as loaded. *)
Lemma load_jobs_partial nid t n good bad rest key :
  nodes t !! nid = Some n → nid ≤ id t → type (data n) ≠ "root" →
  jobs (data n) = good ++ bad :: rest →
  Forall (λ e, missing_key (chicken_mode_enabled t) e = None) good →
  missing_key (chicken_mode_enabled t) bad = Some key →
  ∃ t', load_jobs unquote nid t = (inl (KeyError key), t')
    ∧ id t' = id t + length good
    ∧ chicken_mode_enabled t' = chicken_mode_enabled t
    ∧ nodes t' !! nid =
        Some (with_children (children n ++ seq (id t + 1) (length good)) n)
    ∧ (∀ i e, good !! i = Some e →
         nodes t' !! (id t + 1 + i) =
           Some (child_of unquote (chicken_mode_enabled t) nid (id t + 1 + i) e))
    ∧ (∀ k, k ≤ id t → k ≠ nid → nodes t' !! k = nodes t !! k).
Proof.
  intros Hn Hle Hty Hjs Hgood Hbad.
  destruct (load_entries_complete nid good t n Hn Hle Hgood)
    as (t1 & Hrun & Hid & Hcl & Hch & Hn1 & Hnew & Hfr).
  exists t1. split; [|by split_and!].
  rewrite (load_jobs_seed _ _ _ Hn Hty), Hjs.
  rewrite (bind_congr _ _ _ _ (load_entries_app _ _ _ _)), bind_assoc.
  rewrite (bind_inr _ _ _ _ _ Hrun). simpl.
  rewrite <- Hch in Hbad.
  rewrite (bind_inl _ _ _ _ _ (bind_inl _ _ _ _ _ (load_entry_missing _ _ _ _ Hbad))).
  done.
Qed.

Lemma load_jobs_complete nid t p js :
  nodes t !! nid = Some p → nid ≤ id t →
  pending_jobs t p = Some js →
  Forall (λ e, missing_key (chicken_mode_enabled t) e = None) js →
  ∃ t', load_jobs unquote nid t = (inr tt, t')
    ∧ id t' = id t + length js
    ∧ client t' = client (after_fetch t p)
    ∧ chicken_mode_enabled t' = chicken_mode_enabled t
    ∧ nodes t' !! nid =
        Some (loaded_expanded (children p ++ seq (id t + 1) (length js)) p)
    ∧ (∀ i e, js !! i = Some e →
         nodes t' !! (id t + 1 + i) =
           Some (child_of unquote (chicken_mode_enabled t) nid (id t + 1 + i) e))
    ∧ (∀ k, k ≤ id t → k ≠ nid → nodes t' !! k = nodes t !! k).
Proof.
  intros Hp Hle Hjs Hd.
  set (t0 := after_fetch t p).
  assert (Hn0 : nodes t0 = nodes t) by (unfold t0, after_fetch; by case_bool_decide).
  assert (Hi0 : id t0 = id t) by (unfold t0, after_fetch; by case_bool_decide).
  assert (Hc0 : chicken_mode_enabled t0 = chicken_mode_enabled t)
    by (unfold t0, after_fetch; by case_bool_decide).
  destruct (load_entries_complete nid js t0 p)
    as (t1 & Hrun & Hid & Hcl & Hch & Hn & Hnew & Hfr);
    [by rewrite Hn0 | lia | by rewrite Hc0 |].
  eexists. split.
  { unfold load_jobs. rewrite (bind_inr _ _ _ _ _ (node_Some _ _ _ Hp)).
    rewrite (bind_inr _ _ _ _ _ (pending_jobs_Some _ _ _ Hjs)).
    fold t0. rewrite (bind_inr _ _ _ _ _ Hrun). reflexivity. }
  simpl. rewrite Hi0, Hc0, Hn0 in *. split_and!; try done.
  - by rewrite !lookup_alter_eq, Hn.
  - intros i e Hi. rewrite !lookup_alter_ne by lia. by apply Hnew.
  - intros k Hk Hne. rewrite !lookup_alter_ne by done. by apply Hfr.
Qed.

(** X4. A seed with a descriptor that lacks a key it needs: the click
    raises [KeyError] for that key, the children made for the descriptors
    before it stay in the tree and the folder stays not loaded; so the
    next click loads the seed again, and every descriptor before the
    faulty one has two nodes. *)
Theorem failed_load_is_repeated nid t n good bad rest key :
  nodes t !! nid = Some n → nid ≤ id t →
  type (data n) ≠ "job" → name (data n) ≠ "root" → type (data n) ≠ "root" →
  loaded n = false →
  jobs (data n) = good ++ bad :: rest →
  Forall (λ e, missing_key (chicken_mode_enabled t) e = None) good →
  missing_key (chicken_mode_enabled t) bad = Some key →
  let r1 := handle_tree_click unquote nid t in
  let r2 := handle_tree_click unquote nid r1.2 in
  r1.1 = inl (KeyError key) ∧ r2.1 = inl (KeyError key)
  ∧ nodes r1.2 !! nid =
      Some (with_children (children n ++ seq (id t + 1) (length good)) n)
  ∧ nodes r2.2 !! nid =
      Some (with_children (children n ++ seq (id t + 1) (2 * length good)) n)
  ∧ ∀ i e, good !! i = Some e →
      nodes r2.2 !! (id t + 1 + i) =
        Some (child_of unquote (chicken_mode_enabled t) nid (id t + 1 + i) e)
      ∧ nodes r2.2 !! (id t + 1 + length good + i) =
          Some (child_of unquote (chicken_mode_enabled t) nid
                  (id t + 1 + length good + i) e).
Proof.
  intros Hn Hle Hty Hnm Hnr Hl Hjs Hgood Hbad. cbn zeta.
  destruct (load_jobs_partial nid t n good bad rest key)
    as (t1 & Hrun1 & Hid1 & Hch1 & Hn1 & Hnew1 & Hfr1); [done..|].
  rewrite (handle_tree_click_unloaded _ _ _ _ Hn Hty Hnm Hl).
  rewrite (bind_inl _ _ _ _ _ Hrun1). cbn [fst snd].
  set (n1 := with_children (children n ++ seq (id t + 1) (length good)) n) in *.
  destruct (load_jobs_partial nid t1 n1 good bad rest key)
    as (t2 & Hrun2 & Hid2 & Hch2 & Hn2 & Hnew2 & Hfr2);
    [done | lia | done | done | by rewrite Hch1 | by rewrite Hch1 |].
  rewrite (handle_tree_click_unloaded _ _ _ _ Hn1 Hty Hnm Hl).
  rewrite (bind_inl _ _ _ _ _ Hrun2). cbn [fst snd].
  split_and!; try done.
  - rewrite Hn2. f_equal.
    transitivity (with_children (children n1 ++ seq (id t1 + 1) (length good)) n);
      [reflexivity|].
    f_equal. unfold n1. cbn [children with_children].
    rewrite <- app_assoc, Hid1. f_equal.
    replace (2 * length good) with (length good + length good) by lia.
    rewrite seq_app. do 2 f_equal. lia.
  - intros i e Hi. split.
    + rewrite Hfr2.
      * by apply Hnew1.
      * apply lookup_lt_Some in Hi. lia.
      * lia.
    + rewrite Hch1, Hid1 in Hnew2.
      replace (id t + 1 + length good + i) with (id t + length good + 1 + i) by lia.
      by apply Hnew2.
Qed.

(** X5. In chicken mode the label of every child is ["chicken"] and the
    [name] of a descriptor is not read, so that descriptors without it
    load; the name and the url kept in the node, which [JobClick]
    carries, are those of the url as in the normal mode. *)
Theorem chicken_mode_labels nid t p js :
  chicken_mode_enabled t = true →
  nodes t !! nid = Some p → nid ≤ id t →
  pending_jobs t p = Some js →
  Forall (λ e, is_Some (k_class e) ∧ is_Some (k_url e)) js →
  ∃ t', load_jobs unquote nid t = (inr tt, t')
    ∧ ∀ i e, js !! i = Some e →
        ∃ c, nodes t' !! (id t + 1 + i) = Some c
          ∧ label c = "chicken"
          ∧ url (data c) = default "" (k_url e)
          ∧ name (data c) = full_name (default "" (k_url e)).
Proof.
  intros Hch Hp Hle Hjs Hd.
  destruct (load_jobs_complete nid t p js) as (t' & Hrun & _ & _ & _ & _ & Hnew & _);
    [done..| |].
  { rewrite Hch. eapply Forall_impl; [done|].
    intros e ([cls Hc] & [u Hu]). unfold missing_key. by rewrite Hc, Hu. }
  exists t'. split; [done|]. intros i e Hi.
  eexists. split; [by apply Hnew|]. by rewrite Hch.
Qed.

(** X6. The first click on a folder that is not loaded, with a seed whose
    descriptors have their keys: nothing is emitted, the folder becomes
    loaded and expanded, and it gets one child for each descriptor of its
    seed, in the order of the seed, after the children it had. *)
Theorem first_click_loads nid t n :
  nodes t !! nid = Some n → nid ≤ id t →
  type (data n) ≠ "job" → name (data n) ≠ "root" → type (data n) ≠ "root" →
  loaded n = false →
  Forall (λ e, missing_key (chicken_mode_enabled t) e = None) (jobs (data n)) →
  ∃ t', handle_tree_click unquote nid t = (inr [], t')
    ∧ id t' = id t + length (jobs (data n))
    ∧ client t' = client t
    ∧ nodes t' !! nid =
        Some (loaded_expanded
                (children n ++ seq (id t + 1) (length (jobs (data n)))) n)
    ∧ (∀ i e, jobs (data n) !! i = Some e →
         nodes t' !! (id t + 1 + i) =
           Some (child_of unquote (chicken_mode_enabled t) nid (id t + 1 + i) e))
    ∧ (∀ k, k ≤ id t → k ≠ nid → nodes t' !! k = nodes t !! k).
Proof.
  intros Hn Hle Hty Hnm Hnr Hl Hd.
  assert (Hjs : pending_jobs t n = Some (jobs (data n))).
  { unfold pending_jobs. by rewrite bool_decide_eq_false_2. }
  destruct (load_jobs_complete nid t n _ Hn Hle Hjs Hd)
    as (t' & Hrun & Hid & Hcl & Hch & Hn' & Hnew & Hfr).
  eexists. split.
  { rewrite (handle_tree_click_unloaded _ _ _ _ Hn Hty Hnm Hl).
    rewrite (bind_inr _ _ _ _ _ Hrun). reflexivity. }
  simpl. split_and!; try done.
  - rewrite Hcl. unfold after_fetch. by rewrite bool_decide_eq_false_2.
  - by rewrite lookup_alter_eq, Hn'.
  - intros i e Hi. rewrite lookup_alter_ne by lia. by apply Hnew.
  - intros k Hk Hne. rewrite lookup_alter_ne by done. by apply Hfr.
Qed.

(** X7. Two clicks in a row on a loaded folder leave the widget exactly
    as it was, and emit nothing. *)
Theorem two_clicks_restore nid t n :
  nodes t !! nid = Some n →
  type (data n) ≠ "job" → name (data n) ≠ "root" → loaded n = true →
  let r1 := handle_tree_click unquote nid t in
  let r2 := handle_tree_click unquote nid r1.2 in
  r1.1 = inr [] ∧ r2 = (inr [], t)
  ∧ (expanded <$> nodes r1.2 !! nid) = Some (negb (expanded n)).
Proof.
  intros Hn Hty Hnm Hl. cbn zeta.
  rewrite (handle_tree_click_loaded _ _ _ _ Hn Hty Hnm Hl). cbn [fst snd].
  set (n1 := with_expanded (negb (expanded n)) n).
  assert (Hn1 : nodes (toggle nid t).2 !! nid = Some n1).
  { simpl. by rewrite lookup_alter_eq, Hn. }
  rewrite (handle_tree_click_loaded _ _ _ _ Hn1 Hty Hnm Hl).
  split_and!; [done| |by rewrite Hn1].
  f_equal. destruct t as [ns i c ch]. simpl in *. unfold set_nodes. simpl. f_equal.
  apply map_eq. intros k. destruct (decide (k = nid)) as [->|Hne].
  - rewrite !lookup_alter_eq, Hn. simpl. f_equal. destruct n. simpl.
    by rewrite negb_involutive.
  - by rewrite !lookup_alter_ne.
Qed.

End Composite.

Lemma clicks_never_change_a_node_witness :
  let t := MoreSamples.mounted_broken in
  let n := MoreSamples.node_broken in
  let clicks := [1; 1; 0; 2] in
  (nodes t !! 1 = Some n ∧ 1 ≤ id t)
  ∧ ∃ n', nodes (run_clicks (λ s, s) clicks t) !! 1 = Some n'
    ∧ node_id n' = node_id n ∧ parent n' = parent n
    ∧ label n' = label n ∧ data n' = data n
    ∧ children n `prefix_of` children n'
    ∧ (loaded n = true → loaded n' = true).
Proof.
  cbn zeta.
  assert (H1 : nodes MoreSamples.mounted_broken !! 1 = Some MoreSamples.node_broken)
    by reflexivity.
  assert (H2 : 1 ≤ id MoreSamples.mounted_broken) by (vm_compute; lia).
  split; [done|].
  exact (clicks_never_change_a_node (λ s, s) [1; 1; 0; 2] _ _ _ H1 H2).
Defined.

Lemma failed_load_is_repeated_witness :
  let t := MoreSamples.mounted_broken in
  let n := MoreSamples.node_broken in
  let good := [freestyle_legacy] in
  let r1 := handle_tree_click (λ s, s) 1 t in
  let r2 := handle_tree_click (λ s, s) 1 r1.2 in
  (nodes t !! 1 = Some n ∧ loaded n = false
   ∧ jobs (data n) = good ++ MoreSamples.no_url :: [freestyle_legacy]
   ∧ missing_key (chicken_mode_enabled t) MoreSamples.no_url = Some "url")
  ∧ r1.1 = inl (KeyError "url") ∧ r2.1 = inl (KeyError "url")
  ∧ nodes r1.2 !! 1 =
      Some (with_children (children n ++ seq (id t + 1) (length good)) n)
  ∧ nodes r2.2 !! 1 =
      Some (with_children (children n ++ seq (id t + 1) (2 * length good)) n)
  ∧ ∀ i e, good !! i = Some e →
      nodes r2.2 !! (id t + 1 + i) =
        Some (child_of (λ s, s) (chicken_mode_enabled t) 1 (id t + 1 + i) e)
      ∧ nodes r2.2 !! (id t + 1 + length good + i) =
          Some (child_of (λ s, s) (chicken_mode_enabled t) 1
                  (id t + 1 + length good + i) e).
Proof.
  cbn zeta.
  assert (H1 : nodes MoreSamples.mounted_broken !! 1 = Some MoreSamples.node_broken)
    by reflexivity.
  assert (H2 : 1 ≤ id MoreSamples.mounted_broken) by (vm_compute; lia).
  assert (H3 : type (data MoreSamples.node_broken) ≠ "job") by done.
  assert (H4 : name (data MoreSamples.node_broken) ≠ "root") by (vm_compute; done).
  assert (H5 : type (data MoreSamples.node_broken) ≠ "root") by done.
  assert (H6 : loaded MoreSamples.node_broken = false) by reflexivity.
  assert (H7 : jobs (data MoreSamples.node_broken)
               = [freestyle_legacy] ++ MoreSamples.no_url :: [freestyle_legacy])
    by reflexivity.
  assert (H8 : Forall (λ e, missing_key
                              (chicken_mode_enabled MoreSamples.mounted_broken) e = None)
                 [freestyle_legacy]) by (repeat constructor).
  assert (H9 : missing_key (chicken_mode_enabled MoreSamples.mounted_broken)
                 MoreSamples.no_url = Some "url") by reflexivity.
  split; [done|].
  exact (failed_load_is_repeated (λ s, s) 1 _ _ _ _ _ _ H1 H2 H3 H4 H5 H6 H7 H8 H9).
Defined.

Lemma chicken_mode_labels_witness :
  let t := init [Some [MoreSamples.nameless]] true in
  let js := [MoreSamples.nameless] in
  (chicken_mode_enabled t = true ∧ nodes t !! 0 = Some root_node ∧ 0 ≤ id t
   ∧ pending_jobs t root_node = Some js
   ∧ Forall (λ e, is_Some (k_class e) ∧ is_Some (k_url e)) js)
  ∧ ∃ t', load_jobs (λ s, s) 0 t = (inr tt, t')
    ∧ ∀ i e, js !! i = Some e →
        ∃ c, nodes t' !! (id t + 1 + i) = Some c
          ∧ label c = "chicken"
          ∧ url (data c) = default "" (k_url e)
          ∧ name (data c) = full_name (default "" (k_url e)).
Proof.
  cbn zeta.
  assert (H1 : chicken_mode_enabled (init [Some [MoreSamples.nameless]] true) = true)
    by reflexivity.
  assert (H2 : nodes (init [Some [MoreSamples.nameless]] true) !! 0 = Some root_node)
    by reflexivity.
  assert (H3 : 0 ≤ id (init [Some [MoreSamples.nameless]] true)) by (simpl; lia).
  assert (H4 : pending_jobs (init [Some [MoreSamples.nameless]] true) root_node
               = Some [MoreSamples.nameless]) by reflexivity.
  assert (H5 : Forall (λ e, is_Some (k_class e) ∧ is_Some (k_url e))
                 [MoreSamples.nameless])
    by (repeat constructor; eexists; reflexivity).
  split; [done|].
  exact (chicken_mode_labels (λ s, s) 0 _ _ _ H1 H2 H3 H4 H5).
Defined.

Lemma first_click_loads_witness :
  let t := mounted in
  let n := MoreSamples.node_team in
  (nodes t !! 1 = Some n ∧ 1 ≤ id t ∧ loaded n = false
   ∧ Forall (λ e, missing_key (chicken_mode_enabled t) e = None) (jobs (data n)))
  ∧ ∃ t', handle_tree_click (λ s, s) 1 t = (inr [], t')
    ∧ id t' = id t + length (jobs (data n))
    ∧ client t' = client t
    ∧ nodes t' !! 1 =
        Some (loaded_expanded
                (children n ++ seq (id t + 1) (length (jobs (data n)))) n)
    ∧ (∀ i e, jobs (data n) !! i = Some e →
         nodes t' !! (id t + 1 + i) =
           Some (child_of (λ s, s) (chicken_mode_enabled t) 1 (id t + 1 + i) e))
    ∧ (∀ k, k ≤ id t → k ≠ 1 → nodes t' !! k = nodes t !! k).
Proof.
  cbn zeta.
  assert (H1 : nodes mounted !! 1 = Some MoreSamples.node_team) by reflexivity.
  assert (H2 : 1 ≤ id mounted) by (vm_compute; lia).
  assert (H3 : type (data MoreSamples.node_team) ≠ "job") by done.
  assert (H4 : name (data MoreSamples.node_team) ≠ "root") by (vm_compute; done).
  assert (H5 : type (data MoreSamples.node_team) ≠ "root") by done.
  assert (H6 : loaded MoreSamples.node_team = false) by reflexivity.
  assert (H7 : Forall (λ e, missing_key (chicken_mode_enabled mounted) e = None)
                 (jobs (data MoreSamples.node_team))) by (repeat constructor).
  split; [done|].
  exact (first_click_loads (λ s, s) 1 _ _ H1 H2 H3 H4 H5 H6 H7).
Defined.

Lemma two_clicks_restore_witness :
  let t := mounted_open in
  let n := loaded_expanded [2] MoreSamples.node_team in
  let r1 := handle_tree_click (λ s, s) 1 t in
  let r2 := handle_tree_click (λ s, s) 1 r1.2 in
  (nodes t !! 1 = Some n ∧ loaded n = true)
  ∧ r1.1 = inr [] ∧ r2 = (inr [], t)
  ∧ (expanded <$> nodes r1.2 !! 1) = Some (negb (expanded n)).
Proof.
  cbn zeta.
  assert (H1 : nodes mounted_open !! 1
               = Some (loaded_expanded [2] MoreSamples.node_team)) by reflexivity.
  assert (H2 : type (data (loaded_expanded [2] MoreSamples.node_team)) ≠ "job") by done.
  assert (H3 : name (data (loaded_expanded [2] MoreSamples.node_team)) ≠ "root")
    by (vm_compute; done).
  assert (H4 : loaded (loaded_expanded [2] MoreSamples.node_team) = true) by reflexivity.
  split; [done|].
  exact (two_clicks_restore (λ s, s) 1 _ _ H1 H2 H3 H4).
Defined.

End TreeInvFacts.

(** ** Loading a node once *)

Module LoadOnceFacts.
Import Tree Samples TreeInv MoreSamples TreeFacts TreeInvFacts.

Section Once.
Variable unquote : string → string.

Lemma chicken_handle_tree_click nid t :
  chicken_mode_enabled (handle_tree_click unquote nid t).2 = chicken_mode_enabled t.
Proof.
  apply (keeps_handle_tree_click unquote
           (λ t', chicken_mode_enabled t' = chicken_mode_enabled t) nid);
    [| | | | |done].
  - intros t' Ht'. unfold get_jobs. by destruct (client t') as [|[js|] rest].
  - intros lbl d _ t' Ht'. unfold add. by destruct (nodes t' !! nid).
  - by intros t' Ht'.
  - by intros t' Ht'.
  - by intros t' Ht'.
Qed.

Lemma chicken_on_mount t :
  chicken_mode_enabled (on_mount unquote t).2 = chicken_mode_enabled t.
Proof.
  apply (keeps_load_jobs unquote
           (λ t', chicken_mode_enabled t' = chicken_mode_enabled t) 0);
    [| | | |done].
  - intros t' Ht'. unfold get_jobs. by destruct (client t') as [|[js|] rest].
  - intros lbl d _ t' Ht'. unfold add. by destruct (nodes t' !! 0).
  - by intros t' Ht'.
  - by intros t' Ht'.
Qed.

(** What holds of every widget that is mounted and then clicked. *)
Lemma mounted_clicked (c : Jenkins) (chicken : bool) (pre : list NodeID) :
  let t := run_clicks unquote pre (on_mount unquote (init c chicken)).2 in
  linked t ∧ root_named t ∧ chicken_mode_enabled t = chicken.
Proof.
  cbn zeta.
  apply (keeps_run_clicks unquote
           (λ t, linked t ∧ root_named t ∧ chicken_mode_enabled t = chicken)).
  - intros nid t (Hl & Hr & Hc). split_and!.
    + by apply linked_handle_tree_click.
    + by apply root_named_handle_tree_click.
    + by rewrite chicken_handle_tree_click.
  - split_and!.
    + apply linked_on_mount, linked_init.
    + apply root_named_on_mount, root_named_init.
    + by rewrite chicken_on_mount.
Qed.

(** The click that loads. *)
Lemma click_loads nid t n :
  linked t → root_named t →
  nodes t !! nid = Some n → loaded n = false →
  type (data n) ≠ "job" → name (data n) ≠ "root" →
  Forall (λ e, missing_key (chicken_mode_enabled t) e = None) (jobs (data n)) →
  let t' := (handle_tree_click unquote nid t).2 in
  id t' = id t + length (jobs (data n))
  ∧ nodes t' !! nid =
      Some (loaded_expanded
              (children n ++ seq (id t + 1) (length (jobs (data n)))) n)
  ∧ ∀ i e, jobs (data n) !! i = Some e →
      nodes t' !! (id t + 1 + i) =
        Some (child_of unquote (chicken_mode_enabled t) nid (id t + 1 + i) e).
Proof.
  intros Hlk Hr Hn Hl Hty Hnm Hd. cbn zeta.
  assert (Hle : nid ≤ id t) by (by destruct (Hlk nid n Hn)).
  assert (Hnr : type (data n) ≠ "root") by (intros ?; by apply Hnm, (Hr nid n)).
  assert (Hjs : pending_jobs t n = Some (jobs (data n))).
  { unfold pending_jobs. by rewrite bool_decide_eq_false_2. }
  destruct (load_jobs_complete unquote nid t n _ Hn Hle Hjs Hd)
    as (t' & Hrun & Hid & Hcl & Hch & Hn' & Hnew & Hfr).
  rewrite (handle_tree_click_unloaded _ _ _ _ Hn Hty Hnm Hl).
  rewrite (bind_inr _ _ _ _ _ Hrun). simpl. split_and!; try done.
  - by rewrite lookup_alter_eq, Hn'.
  - intros i e Hi. rewrite lookup_alter_ne by lia. by apply Hnew.
Qed.

(** A node that is not loaded and is clicked in the session is loaded by
    the first of these clicks, and by no other. *)
Lemma load_when_clicked nid clicks :
  ∀ t n, linked t → root_named t →
    nodes t !! nid = Some n → loaded n = false →
    type (data n) ≠ "job" → name (data n) ≠ "root" →
    Forall (λ e, missing_key (chicken_mode_enabled t) e = None) (jobs (data n)) →
    nid ∈ clicks →
    transitions unquote nid clicks t = 1
    ∧ ∃ n' first,
        nodes (run_clicks unquote clicks t) !! nid = Some n'
        ∧ loaded n' = true ∧ data n' = data n
        ∧ children n' = children n ++ seq (first + 1) (length (jobs (data n)))
        ∧ id t ≤ first
        ∧ ∀ i e, jobs (data n) !! i = Some e →
            ∃ cn, nodes (run_clicks unquote clicks t) !! (first + 1 + i) = Some cn
              ∧ parent cn = Some nid
              ∧ label cn =
                  label (child_of unquote (chicken_mode_enabled t) nid (first + 1 + i) e)
              ∧ data cn =
                  data (child_of unquote (chicken_mode_enabled t) nid (first + 1 + i) e).
Proof.
  induction clicks as [|m clicks IH]; intros t n Hlk Hr Hn Hl Hty Hnm Hd Hin.
  { by apply elem_of_nil in Hin. }
  assert (Hle : nid ≤ id t) by (by destruct (Hlk nid n Hn)).
  assert (Hat : loaded_at nid t = false) by (unfold loaded_at; by rewrite Hn).
  cbn [transitions].
  change (run_clicks unquote (m :: clicks) t)
    with (run_clicks unquote clicks (handle_tree_click unquote m t).2).
  rewrite Hat. cbn [negb andb].
  destruct (decide (m = nid)) as [->|Hne].
  - destruct (click_loads nid t n Hlk Hr Hn Hl Hty Hnm Hd) as (Hid & Hn1 & Hnew).
    set (t1 := (handle_tree_click unquote nid t).2) in *.
    set (n1 := loaded_expanded _ n) in Hn1.
    assert (Hle1 : nid ≤ id t1) by lia.
    destruct (clicks_keep_loaded unquote nid clicks t1 n1 Hn1 Hle1 eq_refl)
      as [(n' & Hn' & Hl' & Hc' & Hd') Htr].
    assert (Hat1 : loaded_at nid t1 = true) by (unfold loaded_at; by rewrite Hn1).
    rewrite Hat1, Htr. split; [done|].
    exists n', (id t). split_and!; try done.
    intros i e Hi.
    destruct (keeps_run_clicks unquote (grows t1) clicks
                (grows_handle_tree_click unquote t1) t1 (grows_refl t1)) as [_ Hg].
    specialize (Hg (id t + 1 + i)). rewrite (Hnew i e Hi) in Hg.
    destruct Hg as (cn & Hcn & _ & Hp & Hlb & Hdt & _).
    { apply lookup_lt_Some in Hi. lia. }
    exists cn. by split_and!.
  - destruct (touches_handle_tree_click unquote m t) as [Hid Hfr].
    pose proof (chicken_handle_tree_click m t) as Hch.
    pose proof (linked_handle_tree_click unquote m t Hlk) as Hlk1.
    pose proof (root_named_handle_tree_click unquote m t Hr) as Hr1.
    set (t1 := (handle_tree_click unquote m t).2) in *.
    assert (Hn1 : nodes t1 !! nid = Some n) by (rewrite Hfr by done; done).
    assert (Hat1 : loaded_at nid t1 = false) by (unfold loaded_at; by rewrite Hn1).
    rewrite Hat1. rewrite <- Hch in Hd |- *.
    destruct (IH t1 n Hlk1 Hr1 Hn1 Hl Hty Hnm Hd)
      as (Htr & n' & first & H1 & H2 & H3 & H4 & H5 & H6).
    { apply elem_of_cons in Hin as [->|Hin]; done. }
    split; [by rewrite Htr|].
    exists n', first. split_and!; try done. lia.
Qed.

(** A node turns from not loaded to loaded at most once. *)
Lemma transitions_once nid clicks :
  ∀ t, linked t → transitions unquote nid clicks t ≤ 1.
Proof.
  induction clicks as [|m clicks IH]; intros t Hlk; simpl; [lia|].
  pose proof (linked_handle_tree_click unquote m t Hlk) as Hlk'.
  set (t' := (handle_tree_click unquote m t).2) in *.
  destruct (negb (loaded_at nid t) && loaded_at nid t') eqn:E.
  - apply andb_true_iff in E as [_ E]. unfold loaded_at in E.
    destruct (nodes t' !! nid) as [n'|] eqn:Hn'; [|done]. simpl in E.
    destruct (clicks_keep_loaded unquote nid clicks t' n' Hn') as [_ ->]; [|done|lia].
    by destruct (Hlk' nid n' Hn').
  - specialize (IH t' Hlk'). lia.
Qed.

(** C8. In a widget that has been mounted and clicked, and through any
    further session of clicks: a node, whichever it is, turns from not
    loaded to loaded at most once.  A node that is loaded never turns
    again: it stays loaded and keeps its children and its data whatever
    is clicked, and a click on it (when it is neither a job nor named
    ["root"]) toggles it and does nothing else.  A node that is not
    loaded, is neither a job nor named ["root"], has a seed whose
    descriptors have their keys, and is clicked in the session, turns
    exactly once: at the end it is loaded, with its data, and its
    children are those it had followed by one new node for each
    descriptor of its seed, in the order of the seed and each made once,
    whatever the number of clicks on it. *)
Theorem load_once (c : Jenkins) (chicken : bool) (pre clicks : list NodeID)
    (nid : NodeID) :
  let t := run_clicks unquote pre (on_mount unquote (init c chicken)).2 in
  let t' := run_clicks unquote clicks t in
  transitions unquote nid clicks t ≤ 1
  ∧ (∀ n, nodes t !! nid = Some n → loaded n = true →
       transitions unquote nid clicks t = 0
       ∧ (∃ n', nodes t' !! nid = Some n'
                ∧ loaded n' = true ∧ children n' = children n ∧ data n' = data n)
       ∧ (type (data n) ≠ "job" → name (data n) ≠ "root" →
            handle_tree_click unquote nid t = (inr [], (toggle nid t).2)
            ∧ nodes (toggle nid t).2 !! nid =
                Some (with_expanded (negb (expanded n)) n)))
  ∧ (∀ n, nodes t !! nid = Some n → loaded n = false →
       type (data n) ≠ "job" → name (data n) ≠ "root" →
       Forall (λ e, missing_key chicken e = None) (jobs (data n)) →
       nid ∈ clicks →
       transitions unquote nid clicks t = 1
       ∧ ∃ n' first,
           nodes t' !! nid = Some n'
           ∧ loaded n' = true ∧ data n' = data n
           ∧ children n' = children n ++ seq (first + 1) (length (jobs (data n)))
           ∧ id t ≤ first ∧ NoDup (children n')
           ∧ ∀ i e, jobs (data n) !! i = Some e →
               ∃ cn, nodes t' !! (first + 1 + i) = Some cn
                 ∧ parent cn = Some nid
                 ∧ label cn = label (child_of unquote chicken nid (first + 1 + i) e)
                 ∧ data cn = data (child_of unquote chicken nid (first + 1 + i) e)).
Proof.
  cbn zeta. destruct (mounted_clicked c chicken pre) as (Hlk & Hr & Hch).
  set (t := run_clicks unquote pre (on_mount unquote (init c chicken)).2) in *.
  split_and!.
  - by apply transitions_once.
  - intros n Hn Hl.
    assert (Hle : nid ≤ id t) by (by destruct (Hlk nid n Hn)).
    destruct (clicks_keep_loaded unquote nid clicks t n Hn Hle Hl) as [Hst Htr].
    split_and!; try done.
    intros Hty Hnm. split; [by apply handle_tree_click_loaded with n|].
    simpl. by rewrite lookup_alter_eq, Hn.
  - intros n Hn Hl Hty Hnm Hd Hin. rewrite <- Hch in Hd |- *.
    destruct (load_when_clicked nid clicks t n Hlk Hr Hn Hl Hty Hnm Hd Hin)
      as (Htr & n' & first & H1 & H2 & H3 & H4 & H5 & H6).
    split; [done|]. exists n', first. split_and!; try done.
    assert (Hlk' : linked (run_clicks unquote clicks t)).
    { apply keeps_run_clicks; [apply linked_handle_tree_click|done]. }
    by destruct (Hlk' nid n' H1) as (_ & _ & ? & _).
Qed.

End Once.

Lemma load_once_witness :
  let t := run_clicks (λ s, s) [] (on_mount (λ s, s) (init [Some [folder_team]] false)).2 in
  let t2 := run_clicks (λ s, s) [1] (on_mount (λ s, s) (init [Some [folder_team]] false)).2 in
  let n2 := loaded_expanded [2] node_team in
  ((nodes t !! 1 = Some node_team ∧ loaded node_team = false
    ∧ type (data node_team) ≠ "job" ∧ name (data node_team) ≠ "root"
    ∧ Forall (λ e, missing_key false e = None) (jobs (data node_team))
    ∧ 1 ∈ [1; 2; 1])
   ∧ transitions (λ s, s) 1 [1; 2; 1] t = 1
   ∧ ∃ n' first,
       nodes (run_clicks (λ s, s) [1; 2; 1] t) !! 1 = Some n'
       ∧ loaded n' = true ∧ data n' = data node_team
       ∧ children n' =
           children node_team ++ seq (first + 1) (length (jobs (data node_team)))
       ∧ id t ≤ first ∧ NoDup (children n')
       ∧ ∀ i e, jobs (data node_team) !! i = Some e →
           ∃ cn, nodes (run_clicks (λ s, s) [1; 2; 1] t) !! (first + 1 + i) = Some cn
             ∧ parent cn = Some 1
             ∧ label cn = label (child_of (λ s, s) false 1 (first + 1 + i) e)
             ∧ data cn = data (child_of (λ s, s) false 1 (first + 1 + i) e))
  ∧ ((nodes t2 !! 1 = Some n2 ∧ loaded n2 = true
      ∧ type (data n2) ≠ "job" ∧ name (data n2) ≠ "root")
     ∧ transitions (λ s, s) 1 [1; 2; 1] t2 = 0
     ∧ (∃ n', nodes (run_clicks (λ s, s) [1; 2; 1] t2) !! 1 = Some n'
              ∧ loaded n' = true ∧ children n' = children n2 ∧ data n' = data n2)
     ∧ handle_tree_click (λ s, s) 1 t2 = (inr [], (toggle 1 t2).2)
     ∧ nodes (toggle 1 t2).2 !! 1 = Some (with_expanded (negb (expanded n2)) n2)).
Proof.
  cbn zeta.
  assert (H1 : nodes (run_clicks (λ s, s) []
                        (on_mount (λ s, s) (init [Some [folder_team]] false)).2) !! 1
               = Some node_team) by (vm_compute; reflexivity).
  assert (H2 : loaded node_team = false) by reflexivity.
  assert (H3 : type (data node_team) ≠ "job") by (vm_compute; discriminate).
  assert (H4 : name (data node_team) ≠ "root") by (vm_compute; discriminate).
  assert (H5 : Forall (λ e, missing_key false e = None) (jobs (data node_team)))
    by (repeat constructor).
  assert (H6 : 1 ∈ [1; 2; 1]) by (apply list_elem_of_here).
  assert (K1 : nodes (run_clicks (λ s, s) [1]
                        (on_mount (λ s, s) (init [Some [folder_team]] false)).2) !! 1
               = Some (loaded_expanded [2] node_team)) by (vm_compute; reflexivity).
  assert (K2 : loaded (loaded_expanded [2] node_team) = true) by reflexivity.
  assert (K3 : type (data (loaded_expanded [2] node_team)) ≠ "job")
    by (vm_compute; discriminate).
  assert (K4 : name (data (loaded_expanded [2] node_team)) ≠ "root")
    by (vm_compute; discriminate).
  split.
  - split; [by split_and!|].
    exact (proj2 (proj2 (load_once (λ s, s) [Some [folder_team]] false [] [1; 2; 1] 1))
             node_team H1 H2 H3 H4 H5 H6).
  - split; [by split_and!|].
    destruct (proj1 (proj2 (load_once (λ s, s) [Some [folder_team]] false [1] [1; 2; 1] 1))
                (loaded_expanded [2] node_team) K1 K2) as (L1 & L2 & L3).
    split; [exact L1|]. split; [exact L2|]. exact (L3 K3 K4).
Defined.

End LoadOnceFacts.

(** ** The application, its callbacks and its tree *)

Module CoordinationFacts.
Import App Coordination Samples.

(** X8. [handle_job_click] compares names only: after a job is selected,
    a click on a job of the same name, whatever its url, changes nothing;
    one click posts at most one callback. *)
Theorem handle_job_click_same_name (a : JenkinsTUI) (n u u' : string) :
  let a1 := handle_job_click n u a in
  current_node a1 = n
  ∧ handle_job_click n u' a1 = a1
  ∧ (callbacks a1 = callbacks a ∨ callbacks a1 = callbacks a ++ [set_job n u])
  ∧ container a1 = container a ∧ directory a1 = directory a.
Proof.
  cbn zeta.
  assert (Hsame : ∀ b v, current_node b = n → handle_job_click n v b = b).
  { intros b v Hb. unfold handle_job_click.
    rewrite bool_decide_eq_false_2; [done|]. by intros []. }
  destruct (decide (n = current_node a)) as [Heq|Hne].
  - rewrite (Hsame a u) by done.
    split_and!; [done | by apply Hsame | by left | done | done].
  - assert (Hstep : handle_job_click n u a = with_selection n (set_job n u) a).
    { unfold handle_job_click. by rewrite bool_decide_eq_true_2. }
    rewrite Hstep.
    split_and!; [done | by apply Hsame | by right | done | done].
Qed.

(** X9. When the request of [set_job] fails the panel stays as it was,
    but the job stays selected: a further click on it is ignored, so the
    request is not made again. *)
Theorem failed_fetch_is_not_retried (a : JenkinsTUI) (n u : string) :
  callbacks a = [] → awaiting a = [] → n ≠ current_node a →
  let a1 := run [Job_click n u; Run_callback; Answer 0 None] a in
  container a1 = container a
  ∧ current_node a1 = n
  ∧ callbacks a1 = [] ∧ awaiting a1 = []
  ∧ run [Job_click n u; Run_callback] a1 = a1.
Proof.
  intros Hcb Haw Hn. destruct a as [cur ch panel dir cbs aw]. simpl in *. subst.
  unfold run; simpl. unfold handle_job_click; simpl.
  rewrite bool_decide_eq_true_2 by done. simpl.
  split_and!; try done.
  by rewrite bool_decide_eq_false_2 by (by intros []).
Qed.

Lemma failed_fetch_is_not_retried_witness :
  let a := started in
  let a1 := run [Job_click "A" "http://ci/job/A/"; Run_callback; Answer 0 None] a in
  (callbacks a = [] ∧ awaiting a = [] ∧ "A" ≠ current_node a)
  ∧ container a1 = container a
  ∧ current_node a1 = "A"
  ∧ callbacks a1 = [] ∧ awaiting a1 = []
  ∧ run [Job_click "A" "http://ci/job/A/"; Run_callback] a1 = a1.
Proof.
  cbn zeta.
  assert (H1 : callbacks started = []) by reflexivity.
  assert (H2 : awaiting started = []) by reflexivity.
  assert (H3 : "A" ≠ current_node started) by done.
  split; [done|].
  exact (failed_fetch_is_not_retried started "A" "http://ci/job/A/" H1 H2 H3).
Defined.

(** *** The callbacks, run one at a time *)

Lemma serial_step_head answer a cb cbs :
  callbacks a = cb :: cbs → awaiting a = [] →
  serial_step answer a =
    match panel_of (chicken_mode_enabled a) answer cb with
    | Some p => container_update p (with_queues cbs [] a)
    | None => with_queues cbs [] a
    end.
Proof.
  intros Hcb Haw. unfold serial_step, run_callback. rewrite Hcb, Haw.
  destruct cb as [|n u]; [done|]. simpl.
  unfold resume. simpl. by destruct (answer n u).
Qed.

Lemma serial_drains answer cbs :
  ∀ a, callbacks a = cbs → awaiting a = [] →
  let a' := serial answer (length cbs) a in
  callbacks a' = [] ∧ awaiting a' = []
  ∧ current_node a' = current_node a
  ∧ chicken_mode_enabled a' = chicken_mode_enabled a
  ∧ directory a' = directory a
  ∧ container a' =
      foldl (λ p cb, default p (panel_of (chicken_mode_enabled a) answer cb))
            (container a) cbs.
Proof.
  induction cbs as [|cb cbs IH]; intros a Hcb Haw; [done|].
  cbn zeta. cbn [length serial]. rewrite (serial_step_head answer a cb cbs Hcb Haw).
  destruct (panel_of (chicken_mode_enabled a) answer cb) as [p|] eqn:Hp.
  - destruct (IH (container_update p (with_queues cbs [] a)) eq_refl eq_refl)
      as (? & ? & ? & ? & ? & Hc).
    split_and!; try done. rewrite Hc. simpl. by rewrite Hp.
  - destruct (IH (with_queues cbs [] a) eq_refl eq_refl) as (? & ? & ? & ? & ? & Hc).
    split_and!; try done. rewrite Hc. simpl. by rewrite Hp.
Qed.

Lemma click_posts a e :
  is_click e →
  let a' := step a e in
  awaiting a' = awaiting a ∧ container a' = container a
  ∧ chicken_mode_enabled a' = chicken_mode_enabled a
  ∧ directory a' = directory a
  ∧ ((callbacks a' = callbacks a ∧ current_node a' = current_node a)
     ∨ ∃ cb, callbacks a' = callbacks a ++ [cb] ∧ target cb = current_node a').
Proof.
  destruct e as [|n u| |]; simpl; try done; intros _.
  - unfold handle_root_click. case_bool_decide; simpl; [|by split_and!; try left].
    split_and!; try done. right. by exists set_home.
  - unfold handle_job_click. case_bool_decide; simpl; [|by split_and!; try left].
    split_and!; try done. right. by exists (set_job n u).
Qed.

Lemma clicks_post es :
  ∀ a, Forall is_click es →
  let a' := run es a in
  awaiting a' = awaiting a ∧ container a' = container a
  ∧ chicken_mode_enabled a' = chicken_mode_enabled a
  ∧ directory a' = directory a
  ∧ ∃ posted, callbacks a' = callbacks a ++ posted
      ∧ ((posted = [] ∧ current_node a' = current_node a)
         ∨ ∃ cbs cb, posted = cbs ++ [cb] ∧ target cb = current_node a').
Proof.
  induction es as [|e es IH]; intros a Hes.
  - cbn zeta. simpl. split_and!; try done. exists []. rewrite app_nil_r. by split; [|left].
  - apply Forall_cons in Hes as [He Hes].
    destruct (click_posts a e He) as (Haw & Hco & Hch & Hdi & Hcb).
    destruct (IH (step a e) Hes) as (Haw' & Hco' & Hch' & Hdi' & posted & Hp & Hcur).
    cbn zeta in *. change (run (e :: es) a) with (run es (step a e)).
    split_and!; try congruence.
    destruct Hcb as [[Hcb Hc]|(cb0 & Hcb & Hc)].
    + exists posted. rewrite Hp, Hcb. split; [done|].
      destruct Hcur as [[-> Hcur]|Hcur]; [left; split; congruence | by right].
    + exists (cb0 :: posted). rewrite Hp, Hcb, <- app_assoc. split; [done|]. right.
      destruct Hcur as [[-> Hcur]|(cbs & cb & -> & Hcur)].
      * exists [], cb0. split; [done|]. congruence.
      * exists (cb0 :: cbs), cb. by split.
Qed.

(** X10. With a message pump that runs the callbacks one at a time and a
    server that answers every request, the panel follows the selection:
    from a state at rest whose panel is that of its selection, after any
    clicks and once the callbacks they posted have run, nothing is
    pending and the panel is that of the selection again. *)
Theorem panel_follows_selection answer (a : JenkinsTUI) (es : list event) :
  callbacks a = [] → awaiting a = [] → shows answer a →
  (∀ n u, is_Some (answer n u)) → Forall is_click es →
  let a' := drain answer (run es a) in
  callbacks a' = [] ∧ awaiting a' = []
  ∧ current_node a' = current_node (run es a)
  ∧ shows answer a'.
Proof.
  intros Hcb Haw Hshow Hans Hes. cbn zeta.
  destruct (clicks_post es a Hes) as (Haw' & Hco' & Hch' & Hdi' & posted & Hp & Hcur).
  cbn zeta in *. rewrite Hcb in Hp. simpl in Hp.
  unfold drain. rewrite Hp.
  destruct (serial_drains answer posted (run es a) Hp) as (? & ? & Hc & Hch & ? & Hpanel);
    [congruence|].
  cbn zeta in *. split_and!; try done.
  unfold shows. rewrite Hc, Hch, Hpanel, Hch', Hco'.
  destruct Hcur as [[-> Hcur]|(cbs & cb & -> & Hcur)].
  - simpl. rewrite Hcur. exact Hshow.
  - rewrite foldl_app. simpl. rewrite <- Hcur.
    destruct cb as [|n u]; simpl; [by left|].
    destruct (Hans n u) as [bi Hbi]. rewrite Hbi. simpl. right. eauto.
Qed.

Lemma panel_follows_selection_witness :
  let answer := λ n _ : string, Some (info_of n) in
  let es := [Job_click "A" "http://ci/job/A/"; Job_click "B" "http://ci/job/B/";
             Root_click; Job_click "B" "http://ci/job/B/"] in
  let a' := drain answer (run es started) in
  (callbacks started = [] ∧ awaiting started = [] ∧ shows answer started
   ∧ (∀ n u, is_Some (answer n u)) ∧ Forall is_click es)
  ∧ callbacks a' = [] ∧ awaiting a' = []
  ∧ current_node a' = current_node (run es started)
  ∧ shows answer a'.
Proof.
  cbn zeta.
  assert (H1 : callbacks started = []) by reflexivity.
  assert (H2 : awaiting started = []) by reflexivity.
  assert (H3 : shows (λ n _ : string, Some (info_of n)) started) by (by left).
  assert (H4 : ∀ n u : string, is_Some ((λ n _ : string, Some (info_of n)) n u))
    by (intros; eauto).
  assert (H5 : Forall is_click
                 [Job_click "A" "http://ci/job/A/"; Job_click "B" "http://ci/job/B/";
                  Root_click; Job_click "B" "http://ci/job/B/"])
    by (repeat constructor).
  split; [done|].
  exact (panel_follows_selection _ started _ H1 H2 H3 H4 H5).
Defined.

(** *** Clicks in the tree of the application *)

Section Click.
Variable unquote : string → string.
Import Tree TreeFacts.

Lemma emitting_keeps_tree nid t m ms :
  (handle_tree_click unquote nid t).1 = inr (m :: ms) →
  (handle_tree_click unquote nid t).2 = t.
Proof.
  destruct (nodes t !! nid) as [n|] eqn:Hn.
  - destruct (decide (type (data n) = "job")) as [Hty|Hty].
    { by rewrite (handle_tree_click_job _ _ _ _ Hn Hty). }
    destruct (decide (name (data n) = "root")) as [Hnm|Hnm].
    { by rewrite (handle_tree_click_root _ _ _ _ Hn Hty Hnm). }
    destruct (loaded n) eqn:Hl.
    + by rewrite (handle_tree_click_loaded _ _ _ _ Hn Hty Hnm Hl).
    + rewrite (handle_tree_click_unloaded _ _ _ _ Hn Hty Hnm Hl).
      unfold bind. by destruct (load_jobs unquote nid t) as [[e|[]] t1].
  - unfold handle_tree_click, bind, node. by rewrite Hn.
Qed.

(** X11. A click in the tree changes the tree or the selection, never
    both, and never the panel: when the handler of the tree emits a
    message the tree is as before, and when it does not the selection
    and the callbacks are as before. *)
Theorem tree_click_one_side (nid : NodeID) (a : JenkinsTUI) :
  let a' := tree_click unquote nid a in
  container a' = container a ∧ awaiting a' = awaiting a
  ∧ App.chicken_mode_enabled a' = App.chicken_mode_enabled a
  ∧ (directory a' = directory a
     ∨ (current_node a' = current_node a ∧ callbacks a' = callbacks a)).
Proof.
  cbn zeta. unfold tree_click.
  pose proof (emitting_keeps_tree nid (directory a)) as Hkeep.
  destruct (handle_tree_click unquote nid (directory a)) as [[e|msgs] t'];
    cbn [fst snd] in *.
  - split_and!; try done. by right.
  - destruct msgs as [|m ms].
    + simpl. split_and!; try done. by right.
    + rewrite (Hkeep m ms eq_refl).
      set (a1 := {| current_node := current_node a |}).
      assert (Hframe : ∀ msgs b, container (foldl deliver b msgs) = container b
                ∧ awaiting (foldl deliver b msgs) = awaiting b
                ∧ App.chicken_mode_enabled (foldl deliver b msgs)
                  = App.chicken_mode_enabled b
                ∧ directory (foldl deliver b msgs) = directory b).
      { clear. induction msgs as [|m msgs IH]; intros b; [done|].
        simpl. destruct (IH (deliver b m)) as (-> & -> & -> & ->).
        destruct m as [n u|]; simpl.
        - unfold handle_job_click. by case_bool_decide.
        - unfold handle_root_click. by case_bool_decide. }
      destruct (Hframe (m :: ms) a1) as (-> & -> & -> & ->).
      split_and!; try done. by left.
Qed.

(** X12. From the answer of the server to the selection: in an
    application whose tree is the widget mounted on a client that answers
    [js], a click on the node made for the [i]-th descriptor of the
    answer, when its [_class] is that of a workflow job, is handled as
    [handle_job_click] for the name derived from the url of the
    descriptor and for that url; the tree is not changed. *)
Theorem job_node_click_selects (a : JenkinsTUI) (chicken : bool) js rest i e u :
  directory a = (Tree.on_mount unquote (init (Some js :: rest) chicken)).2 →
  Forall described js →
  js !! i = Some e →
  k_class e = Some "org.jenkinsci.plugins.workflow.job.WorkflowJob" →
  k_url e = Some u →
  tree_click unquote (1 + i) a = handle_job_click (full_name u) u a.
Proof.
  intros Hdir Hd Hi Hcls Hu.
  destruct (load_jobs_ok unquote 0 (init (Some js :: rest) chicken) root_node js)
    as (t' & Hrun & Hid & Hcl & Hroot & Hnew & _); [done | simpl; lia | done | done |].
  specialize (Hnew i e Hi). simpl in Hnew.
  unfold tree_click. rewrite Hdir. unfold Tree.on_mount.
  rewrite Hrun. cbn [snd].
  erewrite handle_tree_click_job; [|exact Hnew|by simpl; rewrite Hcls].
  cbn [fst snd foldl deliver]. simpl. rewrite Hu. simpl.
  unfold handle_job_click. destruct a as [cn ch co di cb aw]. simpl in *.
  subst di. unfold Tree.on_mount. rewrite Hrun. by case_bool_decide.
Qed.

End Click.

Lemma job_node_click_selects_witness :
  let js := [folder_team; job_svc_a] in
  let a := {| current_node := "root"; App.chicken_mode_enabled := false;
              container := home_panel;
              directory := (Tree.on_mount (λ s, s) (Tree.init [Some js] false)).2;
              callbacks := []; awaiting := [] |} in
  (Forall Tree.described js ∧ js !! 1 = Some job_svc_a)
  ∧ tree_click (λ s, s) (1 + 1) a
    = handle_job_click (Tree.full_name "http://ci/job/root/job/svc-a/")
        "http://ci/job/root/job/svc-a/" a.
Proof.
  cbn zeta.
  assert (H1 : Forall Tree.described [folder_team; job_svc_a])
    by (repeat constructor; eexists; reflexivity).
  assert (H2 : [folder_team; job_svc_a] !! 1 = Some job_svc_a) by reflexivity.
  split; [done|].
  exact (job_node_click_selects (λ s, s)
           {| current_node := "root"; App.chicken_mode_enabled := false;
              container := home_panel;
              directory := (Tree.on_mount (λ s, s)
                              (Tree.init [Some [folder_team; job_svc_a]] false)).2;
              callbacks := []; awaiting := [] |} false
           [folder_team; job_svc_a] [] 1 job_svc_a _ eq_refl H1 H2 eq_refl eq_refl).
Defined.

(** X20. A job whose name is ["root"] and the root share the selection
    ["root"]: at the root a click on such a job is ignored, and once such
    a job is selected a click on the root is ignored, so that its panel
    is not replaced by the home panel. *)
Theorem job_named_root_is_shadowed (a : JenkinsTUI) (u : string) :
  handle_job_click "root" u (handle_root_click a) = handle_root_click a
  ∧ handle_root_click (handle_job_click "root" u a) = handle_job_click "root" u a
  ∧ current_node (handle_job_click "root" u a) = "root"
  ∧ (callbacks (handle_job_click "root" u a) = callbacks a
     ∨ callbacks (handle_job_click "root" u a) = callbacks a ++ [set_job "root" u]).
Proof.
  assert (Hroot : ∀ b, current_node b = "root" → handle_root_click b = b).
  { intros b Hb. unfold handle_root_click.
    rewrite bool_decide_eq_false_2; [done|]. by intros []. }
  assert (Hjob : ∀ b, current_node b = "root" → handle_job_click "root" u b = b).
  { intros b Hb. unfold handle_job_click.
    rewrite bool_decide_eq_false_2; [done|]. by intros []. }
  assert (Hcur : current_node (handle_job_click "root" u a) = "root").
  { unfold handle_job_click. case_bool_decide as H; [done|].
    destruct (decide ("root" = current_node a)); [done|by destruct H]. }
  split_and!.
  - apply Hjob. unfold handle_root_click. case_bool_decide as H; [done|].
    destruct (decide (current_node a = "root")); [done|by destruct H].
  - by apply Hroot.
  - done.
  - unfold handle_job_click. case_bool_decide; [by right|by left].
Qed.

End CoordinationFacts.

(** ** More on the name of a job *)

Module NameMoreFacts.
Import PyStr Tree NameFacts.

Lemma full_name_segments (base : string) (segs : list string) :
  base ≠ "" → startswith "/" base = false →
  job_free base →
  segs ≠ [] → Forall segment segs →
  full_name (base +:+ job_path segs +:+ "/") = join "/" segs.
Proof.
  intros Hb Hs Hcl Hne Hsegs. unfold full_name, strip.
  assert (Hl : lstrip "/" (base +:+ job_path segs +:+ "/")
               = base +:+ job_path segs +:+ "/").
  { destruct base as [|c base]; [done|]. rewrite str_app_cons. simpl in *.
    apply andb_false_iff in Hs as [Hs|Hs]; [|done].
    apply bool_decide_eq_false in Hs.
    rewrite bool_decide_eq_false_2; [done|congruence]. }
  rewrite Hl. rewrite <- str_app_assoc, (str_app_assoc base).
  rewrite rstrip_job_path by done.
  unfold split. rewrite (split_job_path segs base "" Hsegs Hcl). done.
Qed.

Lemma split_go_none (sep : string) (s : string) :
  ∀ cur, occurs sep s = false → split_go sep 0 cur s = [cur +:+ s].
Proof.
  induction s as [|c s IH]; intros cur Hocc.
  - by rewrite str_app_nil_r.
  - cbn [occurs] in Hocc. apply orb_false_iff in Hocc as [Hs Hocc].
    cbn [split_go]. rewrite Hs, (IH _ Hocc). by rewrite str_app_assoc.
Qed.

(** X13. A url in which, once its slashes at both ends are removed, no
    ["/job/"] occurs has the empty name: so has the url of the server
    itself. *)
Theorem full_name_without_job (u : string) :
  occurs "/job/" (strip "/" u) = false → full_name u = "".
Proof.
  intros Hocc. unfold full_name, split. by rewrite (split_go_none _ _ "" Hocc).
Qed.

Lemma full_name_without_job_witness :
  occurs "/job/" (strip "/" "http://ci/view/all/") = false
  ∧ full_name "http://ci/view/all/" = "".
Proof.
  assert (H : occurs "/job/" (strip "/" "http://ci/view/all/") = false) by reflexivity.
  split; [done|]. exact (full_name_without_job _ H).
Defined.

Lemma join_snoc (sep : string) (l : list string) (x : string) :
  l ≠ [] → join sep (l ++ [x]) = join sep l +:+ sep +:+ x.
Proof.
  induction l as [|y l IH]; intros Hne; [done|].
  destruct l as [|z l]; [done|].
  change (join sep ((y :: z :: l) ++ [x]))
    with (y +:+ sep +:+ join sep ((z :: l) ++ [x])).
  rewrite IH by done.
  change (join sep (y :: z :: l)) with (y +:+ sep +:+ join sep (z :: l)).
  by rewrite !str_app_assoc.
Qed.

(** X14. Names follow the folders: the name of a job or folder that lies
    in a folder is the name of that folder, a slash, and its own
    segment. *)
Theorem full_name_of_child (base : string) (segs : list string) (s : string) :
  base ≠ "" → startswith "/" base = false → job_free base →
  segs ≠ [] → Forall segment segs → segment s →
  full_name (base +:+ job_path (segs ++ [s]) +:+ "/")
  = full_name (base +:+ job_path segs +:+ "/") +:+ "/" +:+ s.
Proof.
  intros Hb Hs Hcl Hne Hsegs Hseg.
  rewrite (full_name_segments base segs) by done.
  rewrite (full_name_segments base (segs ++ [s])).
  - by apply join_snoc.
  - done.
  - done.
  - done.
  - by destruct segs.
  - apply Forall_app. split; [done|]. by apply Forall_singleton.
Qed.

Lemma full_name_of_child_witness :
  let base := "http://ci" in
  let segs := ["team"] in
  let s := "svc-a" in
  (base ≠ "" ∧ startswith "/" base = false ∧ job_free base
   ∧ segs ≠ [] ∧ Forall segment segs ∧ segment s)
  ∧ full_name (base +:+ job_path (segs ++ [s]) +:+ "/")
    = full_name (base +:+ job_path segs +:+ "/") +:+ "/" +:+ s.
Proof.
  cbn zeta.
  assert (H1 : "http://ci" ≠ "") by done.
  assert (H2 : startswith "/" "http://ci" = false) by reflexivity.
  assert (H3 : job_free "http://ci") by reflexivity.
  assert (H4 : ["team"] ≠ []) by done.
  assert (H5 : Forall segment ["team"]) by (repeat constructor; done).
  assert (H6 : segment "svc-a") by (split; done).
  split; [done|]. exact (full_name_of_child _ _ _ H1 H2 H3 H4 H5 H6).
Defined.

Lemma no_slash_app_slash (y r : string) : no_slash (y +:+ String "/" r) = false.
Proof.
  induction y as [|c y IH]; [done|].
  rewrite str_app_cons. simpl. rewrite IH. apply andb_false_r.
Qed.

Lemma slash_split (x : string) :
  ∀ y r1 r2, no_slash x = true → no_slash y = true →
    x +:+ String "/" r1 = y +:+ String "/" r2 → x = y ∧ r1 = r2.
Proof.
  induction x as [|c x IH]; intros [|d y] r1 r2 Hx Hy Heq.
  - rewrite !str_app_nil_l in Heq. by injection Heq as ->.
  - rewrite str_app_nil_l, str_app_cons in Heq. injection Heq as <- _.
    by simpl in Hy.
  - rewrite str_app_nil_l, str_app_cons in Heq. injection Heq as -> _.
    by simpl in Hx.
  - rewrite !str_app_cons in Heq. injection Heq as -> Heq.
    simpl in Hx, Hy. apply andb_true_iff in Hx as [_ Hx].
    apply andb_true_iff in Hy as [_ Hy].
    destruct (IH y r1 r2 Hx Hy Heq) as [-> ->]. done.
Qed.

Lemma join_segments_inj (l1 : list string) :
  ∀ l2, Forall segment l1 → Forall segment l2 →
    join "/" l1 = join "/" l2 → l1 = l2.
Proof.
  induction l1 as [|x l1 IH]; intros [|y l2] H1 H2 Heq; [done| | |].
  - apply Forall_cons in H2 as [[Hy _] _]. exfalso.
    destruct l2; simpl in Heq; [by subst|]. destruct y; [done|].
    by rewrite str_app_cons in Heq.
  - apply Forall_cons in H1 as [[Hx _] _]. exfalso.
    destruct l1; simpl in Heq; [by subst|]. destruct x; [done|].
    by rewrite str_app_cons in Heq.
  - apply Forall_cons in H1 as [[Hx Hxs] H1].
    apply Forall_cons in H2 as [[Hy Hys] H2].
    destruct l1 as [|x' l1], l2 as [|y' l2].
    + simpl in Heq. by subst.
    + exfalso. simpl in Heq. rewrite Heq in Hxs.
      change ("/" +:+ ?r) with (String "/" r) in Hxs.
      by rewrite no_slash_app_slash in Hxs.
    + exfalso. simpl in Heq. rewrite <- Heq in Hys.
      change ("/" +:+ ?r) with (String "/" r) in Hys.
      by rewrite no_slash_app_slash in Hys.
    + change (x +:+ String "/" (join "/" (x' :: l1))
              = y +:+ String "/" (join "/" (y' :: l2))) in Heq.
      destruct (slash_split x y _ _ Hxs Hys Heq) as [-> Hrest].
      f_equal. by apply IH.
Qed.

(** X15. The name tells the jobs of a server apart: two urls made of a
    base and of path segments have the same name exactly when they have
    the same segments. *)
Theorem full_name_inj (base1 base2 : string) (segs1 segs2 : list string) :
  base1 ≠ "" → startswith "/" base1 = false → job_free base1 →
  base2 ≠ "" → startswith "/" base2 = false → job_free base2 →
  segs1 ≠ [] → Forall segment segs1 → segs2 ≠ [] → Forall segment segs2 →
  full_name (base1 +:+ job_path segs1 +:+ "/")
  = full_name (base2 +:+ job_path segs2 +:+ "/")
  ↔ segs1 = segs2.
Proof.
  intros. rewrite !full_name_segments by done.
  split; [by apply join_segments_inj | by intros ->].
Qed.

Lemma full_name_inj_witness :
  let base := "http://ci" in
  let segs1 := ["team"; "svc-a"] in
  let segs2 := ["team"; "svc-b"] in
  (base ≠ "" ∧ startswith "/" base = false ∧ job_free base
   ∧ segs1 ≠ [] ∧ Forall segment segs1 ∧ segs2 ≠ [] ∧ Forall segment segs2)
  ∧ (full_name (base +:+ job_path segs1 +:+ "/")
     = full_name (base +:+ job_path segs2 +:+ "/")
     ↔ segs1 = segs2).
Proof.
  cbn zeta.
  assert (H1 : "http://ci" ≠ "") by done.
  assert (H2 : startswith "/" "http://ci" = false) by reflexivity.
  assert (H3 : job_free "http://ci") by reflexivity.
  assert (H4 : ["team"; "svc-a"] ≠ []) by done.
  assert (H5 : Forall segment ["team"; "svc-a"]) by (repeat constructor; done).
  assert (H6 : ["team"; "svc-b"] ≠ []) by done.
  assert (H7 : Forall segment ["team"; "svc-b"]) by (repeat constructor; done).
  split; [done|].
  exact (full_name_inj _ _ _ _ H1 H2 H3 H1 H2 H3 H4 H5 H6 H7).
Defined.

End NameMoreFacts.

(** ** More on the cache of the label renderer *)

Module LruMoreFacts.
Import LruCache LruFacts.

Section Cache.
Context {K V : Type} `{EqDecision K}.
Implicit Types (c : cache (K := K) (V := V)) (k : K).

Lemma cache_get_elem k c v : cache_get k c = Some v → (k, v) ∈ c.
Proof.
  induction c as [|[k' v'] c IH]; simpl; [done|].
  case_decide as Hk; [|intros ?; apply elem_of_cons; right; by apply IH].
  intros [= ->]. subst. apply elem_of_cons. by left.
Qed.

Lemma keys_sublist c c' : c' `sublist_of` c → keys c' `sublist_of` keys c.
Proof.
  unfold keys. induction 1 as [|p c1 c2 _ IH|p c1 c2 _ IH]; simpl.
  - constructor.
  - by constructor.
  - by constructor.
Qed.

Lemma Forall_of_sublist (P : K * V → Prop) c c' :
  c' `sublist_of` c → Forall P c → Forall P c'.
Proof.
  intros Hsub Hall. apply Forall_forall. intros p Hp.
  apply (proj1 (Forall_forall _ _) Hall). by eapply elem_of_sublist.
Qed.

Lemma removelast_sublist c : removelast c `sublist_of` c.
Proof. rewrite removelast_take. apply sublist_take. Qed.

Lemma cache_del_sublist k c : cache_del k c `sublist_of` c.
Proof. unfold cache_del. apply sublist_filter. Qed.

Lemma cache_del_not_in k c : k ∉ keys (cache_del k c).
Proof.
  unfold keys, cache_del. intros Hin.
  apply list_elem_of_fmap in Hin as ([k' v'] & -> & Hin).
  by apply list_elem_of_filter in Hin as [? _].
Qed.

(** X16. The invariants of the cache: a call answers what the function
    computes, provided each entry holds what the function computes for
    its key, and leaves such a cache; and no key is entered twice. *)
Theorem call_memoizes (maxsize : nat) (f : K → V) k c :
  Forall (λ p, p.2 = f p.1) c → NoDup (keys c) →
  (call maxsize f k c).1 = f k
  ∧ Forall (λ p, p.2 = f p.1) (call maxsize f k c).2
  ∧ NoDup (keys (call maxsize f k c).2).
Proof.
  intros Hco Hnd. unfold call.
  destruct (cache_get k c) as [v|] eqn:Hget; simpl.
  - assert (Hv : v = f k).
    { apply cache_get_elem in Hget. by apply (proj1 (Forall_forall _ _) Hco (k, v)). }
    split_and!; [done| |].
    + apply Forall_cons. split; [done|].
      apply (Forall_of_sublist _ c); [apply cache_del_sublist|done].
    + change (NoDup (k :: keys (cache_del k c))). apply NoDup_cons. split.
      * apply cache_del_not_in.
      * eapply sublist_NoDup; [done|]. apply keys_sublist, cache_del_sublist.
  - apply cache_get_None in Hget.
    repeat case_decide; simpl; (split_and!; [done| |]); try done.
    + apply Forall_cons. split; [done|].
      apply (Forall_of_sublist _ c); [apply removelast_sublist|done].
    + change (NoDup (k :: keys (removelast c))). apply NoDup_cons. split.
      * intros Hin. apply Hget.
        eapply elem_of_sublist; [done|]. apply keys_sublist, removelast_sublist.
      * eapply sublist_NoDup; [done|]. apply keys_sublist, removelast_sublist.
    + by apply Forall_cons.
    + change (NoDup (k :: keys c)). by apply NoDup_cons.
Qed.

(** X17. A hit: the label stored is returned, whatever the function would
    compute now; the key moves to the front and no key is dropped. *)
Theorem call_hit (maxsize : nat) (f : K → V) k c v :
  cache_get k c = Some v → NoDup (keys c) →
  (call maxsize f k c).1 = v
  ∧ head (keys (call maxsize f k c).2) = Some k
  ∧ keys (call maxsize f k c).2 ≡ₚ keys c
  ∧ length (call maxsize f k c).2 = length c.
Proof.
  intros Hget Hnd. unfold call. rewrite Hget. cbn [fst snd].
  assert (Hperm : k :: keys (cache_del k c) ≡ₚ keys c).
  { apply NoDup_Permutation; [|done|].
    - apply NoDup_cons. split; [apply cache_del_not_in|].
      eapply sublist_NoDup; [done|]. apply keys_sublist, cache_del_sublist.
    - intros x. rewrite elem_of_cons. split.
      + intros [->|Hx].
        * apply cache_get_is_Some. eauto.
        * eapply elem_of_sublist; [done|]. apply keys_sublist, cache_del_sublist.
      + intros Hx. destruct (decide (x = k)) as [->|Hne]; [by left|right].
        unfold keys in *. apply list_elem_of_fmap in Hx as ([k' v'] & -> & Hx).
        apply list_elem_of_fmap. exists (k', v'). split; [done|].
        unfold cache_del. by apply list_elem_of_filter. }
  split_and!; [done|done|exact Hperm|].
  apply Permutation_length in Hperm. unfold keys in Hperm.
  simpl in *. rewrite !length_fmap in Hperm. done.
Qed.

End Cache.

Lemma call_memoizes_witness :
  let f := λ n : nat, n * n in
  let c := [(3, 9); (1, 1)] in
  (Forall (λ p, p.2 = f p.1) c ∧ NoDup (keys c))
  ∧ (call 2 f 5 c).1 = f 5
  ∧ Forall (λ p, p.2 = f p.1) (call 2 f 5 c).2
  ∧ NoDup (keys (call 2 f 5 c).2).
Proof.
  cbn zeta.
  assert (H1 : Forall (λ p : nat * nat, p.2 = p.1 * p.1) [(3, 9); (1, 1)])
    by (repeat constructor).
  assert (H2 : NoDup (keys [(3, 9); (1, 1)])) by (apply (bool_decide_unpack _); by vm_compute).
  split; [done|]. exact (call_memoizes 2 (λ n, n * n) 5 _ H1 H2).
Defined.

Lemma call_hit_witness :
  let f := λ n : nat, n * n in
  let c := [(3, 9); (1, 1)] in
  (cache_get 1 c = Some 1 ∧ NoDup (keys c))
  ∧ (call 2 f 1 c).1 = 1
  ∧ head (keys (call 2 f 1 c).2) = Some 1
  ∧ keys (call 2 f 1 c).2 ≡ₚ keys c
  ∧ length (call 2 f 1 c).2 = length c.
Proof.
  cbn zeta.
  assert (H1 : cache_get 1 [(3, 9); (1, 1)] = Some 1) by reflexivity.
  assert (H2 : NoDup (keys [(3, 9); (1, 1)])) by (apply (bool_decide_unpack _); by vm_compute).
  split; [done|]. exact (call_hit 2 (λ n, n * n) 1 _ 1 H1 H2).
Defined.

End LruMoreFacts.

(** ** The labels of the nodes *)

Module RenderMoreFacts.
Import Tree TreeInv TreeFacts TreeInvFacts Render.

Section Labels.
Variable unquote : string → string.

(** X18. What is rendered for a key does not change when the tree is
    clicked or the cursor moves, as long as the key says whether its node
    is under the cursor; so a label kept in the cache is the label that
    would be rendered now. *)
Theorem render_tree_label_stable (clicks : list NodeID) t (cursor cursor' : NodeID)
    (k : key) :
  linked t → k_node k ≤ id t →
  k_is_cursor k = bool_decide (cursor = k_node k) →
  k_is_cursor k = bool_decide (cursor' = k_node k) →
  render_tree_label (run_clicks unquote clicks t) cursor' k
  = render_tree_label t cursor k.
Proof.
  intros Hl Hk Hc Hc'.
  destruct (keeps_run_clicks unquote (grows t) clicks
              (grows_handle_tree_click unquote t) t (grows_refl t)) as [_ H].
  specialize (H (k_node k) Hk). unfold render_tree_label.
  destruct (nodes t !! k_node k) as [n|] eqn:Hn.
  - destruct H as (n' & -> & Hid & _ & Hlab & Hdat & _). simpl.
    destruct (Hl _ _ Hn) as (_ & Hidn & _).
    rewrite Hlab, Hdat, Hid, Hidn. rewrite <- Hc, <- Hc'. done.
  - by rewrite H.
Qed.

Lemma type_map_other (cls : string) :
  cls ≠ "com.cloudbees.hudson.plugins.folder.Folder" →
  cls ≠ "org.jenkinsci.plugins.workflow.multibranch.WorkflowMultiBranchProject" →
  default "" (type_map !! cls) ≠ "root"
  ∧ default "" (type_map !! cls) ≠ "folder"
  ∧ default "" (type_map !! cls) ≠ "multibranch".
Proof.
  intros Hf Hm. unfold type_map.
  destruct (decide (cls = "org.jenkinsci.plugins.workflow.job.WorkflowJob")) as [->|Hj].
  - by rewrite lookup_insert_eq.
  - rewrite !lookup_insert_ne by done. by rewrite lookup_empty.
Qed.

(** X19. From the descriptor to the icon: the node made for a descriptor
    is drawn as a folder, open or closed, when its [_class] is that of a
    folder, as a multibranch project when it is that of one, and in every
    other case, known or not, by the icon of its color, which is that of
    ["none"] when the descriptor has no color and ["?"] when the color is
    not in the table. *)
Theorem icon_of_descriptor t (cursor : NodeID) (k : key) chicken p (e : entry) cls :
  nodes t !! k_node k = Some (child_of unquote chicken p (k_node k) e) →
  k_class e = Some cls →
  k_type k = default "" (type_map !! cls) →
  ∃ r, render_tree_label t cursor k = Some r
    ∧ text r = (if chicken then "chicken" else unquote (default "" (k_name e)))
    ∧ meta_click r = k_node k
    ∧ icon r =
        if bool_decide (cls = "com.cloudbees.hudson.plugins.folder.Folder")
        then (if k_expanded k then "📂" else "📁")
        else if bool_decide
                  (cls = "org.jenkinsci.plugins.workflow.multibranch.WorkflowMultiBranchProject")
        then "🌱"
        else match k_color e with
             | None => "🟣"
             | Some col => default "?" (color_map !! col)
             end.
Proof.
  intros Hn Hcls Hty. unfold render_tree_label. rewrite Hn.
  cbn [mbind option_bind child_of label node_id data color].
  rewrite Hty.
  destruct (decide (cls = "com.cloudbees.hudson.plugins.folder.Folder")) as [->|Hf].
  { change (default "" (type_map !! "com.cloudbees.hudson.plugins.folder.Folder"))
      with "folder".
    eexists. split; [reflexivity|]. split_and!; reflexivity. }
  destruct (decide (cls = "org.jenkinsci.plugins.workflow.multibranch.WorkflowMultiBranchProject"))
    as [->|Hm].
  { change (default "" (type_map !! "org.jenkinsci.plugins.workflow.multibranch.WorkflowMultiBranchProject"))
      with "multibranch".
    eexists. split; [reflexivity|]. split_and!; reflexivity. }
  destruct (type_map_other cls Hf Hm) as (H1 & H2 & H3).
  rewrite (bool_decide_eq_false_2 (default "" (type_map !! cls) = "root")) by done.
  rewrite (bool_decide_eq_false_2 (default "" (type_map !! cls) = "folder")) by done.
  rewrite (bool_decide_eq_false_2 (default "" (type_map !! cls) = "multibranch")) by done.
  rewrite (bool_decide_eq_false_2 (cls = "com.cloudbees.hudson.plugins.folder.Folder")) by done.
  rewrite (bool_decide_eq_false_2 (cls = "org.jenkinsci.plugins.workflow.multibranch.WorkflowMultiBranchProject")) by done.
  eexists. split; [reflexivity|]. cbn [text meta_click icon].
  split_and!; try done. by destruct (k_color e).
Qed.

End Labels.

Lemma render_tree_label_stable_witness :
  let t := Samples.mounted in
  let k := {| k_self := 0; k_node := 1; k_type := "folder"; k_expanded := false;
              k_is_cursor := false; k_is_hover := false; k_has_focus := true |} in
  (linked t ∧ k_node k ≤ id t
   ∧ k_is_cursor k = bool_decide (0 = k_node k)
   ∧ k_is_cursor k = bool_decide (2 = k_node k))
  ∧ render_tree_label (run_clicks (λ s, s) [1; 2] t) 2 k = render_tree_label t 0 k.
Proof.
  cbn zeta.
  assert (H1 : linked Samples.mounted)
    by exact (linked_on_mount (λ s, s) _ (linked_init _ _)).
  assert (H2 : 1 ≤ id Samples.mounted) by (vm_compute; lia).
  split; [done|].
  exact (render_tree_label_stable (λ s, s) [1; 2] Samples.mounted 0 2
           {| k_self := 0; k_node := 1; k_type := "folder"; k_expanded := false;
              k_is_cursor := false; k_is_hover := false; k_has_focus := true |}
           H1 H2 eq_refl eq_refl).
Defined.

Lemma icon_of_descriptor_witness :
  let t := MoreSamples.mounted_broken in
  let k := {| k_self := 0; k_node := 1; k_type := "folder"; k_expanded := true;
              k_is_cursor := false; k_is_hover := false; k_has_focus := true |} in
  nodes t !! k_node k = Some (child_of (λ s, s) false 0 (k_node k) MoreSamples.folder_broken)
  ∧ ∃ r, render_tree_label t 0 k = Some r
    ∧ text r = "broken" ∧ meta_click r = 1 ∧ icon r = "📂".
Proof.
  cbn zeta.
  assert (H1 : nodes MoreSamples.mounted_broken !! 1
               = Some (child_of (λ s, s) false 0 1 MoreSamples.folder_broken))
    by reflexivity.
  split; [done|].
  exact (icon_of_descriptor (λ s, s) MoreSamples.mounted_broken 0
           {| k_self := 0; k_node := 1; k_type := "folder"; k_expanded := true;
              k_is_cursor := false; k_is_hover := false; k_has_focus := true |}
           false 0 MoreSamples.folder_broken _ H1 eq_refl eq_refl).
Defined.

End RenderMoreFacts.
